(** * CEAP dashboard: the risk-scoring engine of [scripts/prepare-data.py]

    A shallow embedding of the data-preparation script and the properties of
    its risk-scoring core.

    Numeric conventions of the embedding.
    - Monetary amounts are the two-decimal values of the expense table, held
      as an integer number of centavos ([Z]); a missing value (pandas NaN) is
      [None].
    - Quantities derived from the data (totals, percentages, means, z-scores,
      the chi-squared statistic) are exact rationals ([Q]).
    - The risk score, which the script builds from its own literals, the
      reported p-value and the HHI value with its cut points are binary64
      floats, computed with the kernel's primitive floats exactly as Python
      computes them, [round(x, 2)] included.
    - The peer statistics are embedded a second time in binary64 (module
      [PeerStatistics]): [np.mean] and [np.std] round at every step, and the
      guard on the standard deviation reads the rounded value. *)

From Stdlib Require Import ZArith QArith Qround Qabs Qpower Lqa Floats Uint63.
From Stdlib Require Import Bool List String Ascii Lia Sorted Permutation FinFun.
From Stdlib Require Import DecimalString DecimalFacts DecimalPos OrderedTypeEx.
Import ListNotations.

Set Warnings "-inexact-float".
Local Open Scope string_scope.
Local Open Scope list_scope.
Local Open Scope Z_scope.

(** ** Python primitives used by the script *)

Module Py.

(** Outcome of an expression that may raise. *)
Inductive res (A : Type) : Type :=
| Ok (a : A)
| ValueError.
Arguments Ok {A} a.
Arguments ValueError {A}.

Definition bind {A B} (m : res A) (k : A -> res B) : res B :=
  match m with
  | Ok a => k a
  | ValueError => ValueError
  end.

Fixpoint mapM {A B} (f : A -> res B) (l : list A) : res (list B) :=
  match l with
  | [] => Ok []
  | x :: t => bind (f x) (fun y => bind (mapM f t) (fun ys => Ok (y :: ys)))
  end.

(** Round half to even of the quotient [n / d], [d > 0]. *)
Definition round_half_even (n d : Z) : Z :=
  let q := n / d in
  let r := n mod d in
  match 2 * r ?= d with
  | Lt => q
  | Gt => q + 1
  | Eq => if Z.even q then q else q + 1
  end.

(** [round(x, 2)] on an exact rational. *)
Definition Qround2 (x : Q) : Q :=
  round_half_even (Qnum x * 100) (Zpos (Qden x)) # 100.

(** [round(x, 2)] on a binary64 float [x = m * 2^e]: the exact value of [x]
    is rounded to two decimals, half to even, and the decimal [k / 100] is
    read back as the nearest float, which is the correctly rounded quotient
    of [k] by 100 as long as [k] is itself a float.  A float that is a whole
    number, or so large that [k] is not below 2^53 (floats are then more
    than 0.01 apart), is its own rounding; zeros, infinities and NaN are
    returned unchanged. *)
Definition round2 (x : float) : float :=
  match Prim2SF x with
  | S754_finite s m e =>
      if 0 <=? e then x
      else
        let k := round_half_even (100 * Zpos m) (2 ^ (- e)) in
        if k <? 2 ^ 53
        then let r := (PrimFloat.of_uint63 (Uint63.of_Z k) / 100)%float in
             if s then (- r)%float else r
        else x
  | _ => x
  end.

(** [min(a, b)] of two floats: the first argument unless the second is
    smaller. *)
Definition fmin (a b : float) : float :=
  if PrimFloat.ltb b a then b else a.

(** [a > b] and [a >= b] on floats (false on NaN). *)
Definition fgt (a b : float) : bool := PrimFloat.ltb b a.
Definition fge (a b : float) : bool := PrimFloat.leb b a.

(** [a > b] and [a >= b] on rationals. *)
Definition Qgtb (a b : Q) : bool := negb (Qle_bool a b).
Definition Qgeb (a b : Q) : bool := Qle_bool b a.

(** Characters removed by [str.strip()]. *)
Definition is_space (c : ascii) : bool :=
  let n := nat_of_ascii c in
  ((9 <=? n) && (n <=? 13))%nat || (n =? 32)%nat.

(** [s.strip() == ''] *)
Definition strip_is_empty (s : string) : bool :=
  forallb is_space (list_ascii_of_string s).

Definition str_in (s : string) (l : list string) : bool :=
  existsb (String.eqb s) l.

End Py.

(** ** Validation of the expense table ([validate_expenses], [main]) *)

Module Validation.
Import Py.

(** A cell of a data frame: missing, a number (centavos for the value
    columns, an integer for year and month) or text. *)
Inductive cell : Type :=
| NaN
| Num (z : Z)
| Str (s : string).

Definition row : Type := list (string * cell).

Record DataFrame : Type := {
  columns : list string;
  rows : list row
}.

Fixpoint get (col : string) (r : row) : cell :=
  match r with
  | [] => NaN
  | (k, v) :: t => if String.eqb k col then v else get col t
  end.

Definition column (col : string) (df : DataFrame) : list cell :=
  map (get col) (rows df).

(** [df.empty]: no rows or no columns. *)
Definition empty (df : DataFrame) : bool :=
  match columns df, rows df with
  | [], _ | _, [] => true
  | _, _ => false
  end.

Definition isna (c : cell) : bool :=
  match c with NaN => true | _ => false end.

Definition num_lt (c : cell) (k : Z) : bool :=
  match c with Num z => z <? k | _ => false end.

Definition num_gt (c : cell) (k : Z) : bool :=
  match c with Num z => k <? z | _ => false end.

Definition count {A} (p : A -> bool) (l : list A) : Z :=
  Z.of_nat (List.length (filter p l)).

(** [Series.min()] and [Series.max()], skipping NaN; NaN when nothing is
    left. *)
Definition series_fold (f : Z -> Z -> Z) (l : list cell) : cell :=
  fold_left (fun acc c =>
               match c, acc with
               | Num z, Num a => Num (f a z)
               | Num z, _ => Num z
               | _, _ => acc
               end) l NaN.

(** The messages of the script, with the numbers they print. *)
Inductive issue : Type :=
| EmptyFrame
| MissingDeputyColumn
| MissingValueColumn
| MissingRequiredColumn (col : string)
| SchemaIssue (text : string)
| NegativeValues (n : Z) (col : string)
| NullValues (n : Z) (col : string)
| UnusualYearRange (lo hi : cell)
| InvalidMonths (n : Z)
| EmptyCnpj (n : Z).

Definition deputy_col_of (df : DataFrame) : string :=
  if str_in "txNomeParlamentar" (columns df)
  then "txNomeParlamentar" else "nomeParlamentar".

Definition value_col_of (df : DataFrame) : string :=
  if str_in "vlrLiquido" (columns df) then "vlrLiquido" else "vlrDocumento".

(** Stage 1: the required columns. *)
Definition stage1 (df : DataFrame) : list issue :=
  (if str_in (deputy_col_of df) (columns df) then [] else [MissingDeputyColumn])
  ++ (if str_in (value_col_of df) (columns df) then [] else [MissingValueColumn])
  ++ flat_map (fun col => if str_in col (columns df) then []
                          else [MissingRequiredColumn col])
       ["numAno"; "numMes"].

(** Stage 1 found nothing. *)
Definition no_missing_column (df : DataFrame) : bool :=
  match stage1 df with [] => true | _ :: _ => false end.

Definition invalid_month (c : cell) : bool := num_lt c 1 || num_gt c 12.

Definition invalid_months (df : DataFrame) : Z :=
  count invalid_month (column "numMes" df).

Definition cnpj_blank (c : cell) : bool :=
  match c with
  | NaN => true
  | Str s => strip_is_empty s
  | Num _ => false
  end.

(** Stage 3, the warnings: negative values, nulls in the critical columns,
    year range, empty CNPJ. *)
Definition stage3_warnings (df : DataFrame) : list issue :=
  let value_col := value_col_of df in
  let deputy_col := deputy_col_of df in
  (if str_in value_col (columns df)
   then let neg_count := count (fun c => num_lt c 0) (column value_col df) in
        if 0 <? neg_count then [NegativeValues neg_count value_col] else []
   else [])
  ++ flat_map (fun col =>
                 if str_in col (columns df)
                 then let null_count := count isna (column col df) in
                      if 0 <? null_count then [NullValues null_count col] else []
                 else [])
       [deputy_col; value_col]
  ++ (if str_in "numAno" (columns df)
      then let min_year := series_fold Z.min (column "numAno" df) in
           let max_year := series_fold Z.max (column "numAno" df) in
           if num_lt min_year 2000 || num_gt max_year 2030
           then [UnusualYearRange min_year max_year] else []
      else [])
  ++ (if str_in "txtCNPJCPF" (columns df)
      then let empty_count := count cnpj_blank (column "txtCNPJCPF" df) in
           if 0 <? empty_count then [EmptyCnpj empty_count] else []
      else []).

(** Stage 3, the one check that appends to [errors]: month values. *)
Definition stage3_errors (df : DataFrame) : list issue :=
  if str_in "numMes" (columns df)
  then if 0 <? invalid_months df then [InvalidMonths (invalid_months df)] else []
  else [].

Section Validate.

(** Stage 2 is the schema check of [lib.schemas], outside this file: whatever
    it finds (or raises) is appended to the warnings; it yields nothing when
    the schemas cannot be imported. *)
Variable schema_stage : DataFrame -> list issue.

(** [validate_expenses]: [(is_valid, errors, warnings)]. *)
Definition validate_expenses (df : DataFrame) : bool * list issue * list issue :=
  if empty df then (true, [], [EmptyFrame])
  else
    let errors := stage1 df in
    match errors with
    | _ :: _ => (false, errors, [])
    | [] =>
        let warnings := schema_stage df ++ stage3_warnings df in
        let errors := stage3_errors df in
        let is_valid := (List.length errors =? 0)%nat in
        (is_valid, errors, warnings)
    end.

(** What [main] does after validation. *)
Inductive run : Type :=
| ValidationFailed (errors warnings : list issue)
| Proceeded (warnings : list issue).

Definition main (df : DataFrame) : run :=
  let '(is_valid, errors, warnings) := validate_expenses df in
  if negb is_valid then ValidationFailed errors warnings
  else Proceeded warnings.

End Validate.

End Validation.

(** ** Round-number detector ([is_round_value]) *)

Module RoundNumber.

(** [value % k] for a positive whole [k], in centavos.  Python's [%] takes
    the sign of the divisor, as [Z.modulo] does. *)
Definition pymod (centavos k : Z) : Z := centavos mod (k * 100).

Definition is_round_value (value : option Z) : bool :=
  match value with
  | None => false
  | Some v => (pymod v 1 =? 0) && (pymod v 100 =? 0)
  end.

(** [group[value_col].apply(is_round_value).sum()] *)
Definition round_count (values : list (option Z)) : Z :=
  Z.of_nat (List.length (filter is_round_value values)).

(** [round_value_pct], over [transaction_count = len(group)]. *)
Definition round_value_pct (values : list (option Z)) : Q :=
  let transaction_count := Z.of_nat (List.length values) in
  if 0 <? transaction_count
  then (inject_Z (round_count values) / inject_Z transaction_count * 100)%Q
  else 0%Q.

End RoundNumber.

(** ** Digit-anomaly tester ([get_first_digit], [calculate_benford_analysis]) *)

Module Benford.
Import Py.

Definition zero_char : ascii := "0"%char.
Definition dot_char : ascii := "."%char.
Definition minus_char : ascii := "-"%char.

Definition digit_char (d : Z) : ascii := ascii_of_nat (48 + Z.to_nat d).

(** Decimal numeral of a natural number, as [str] prints it. *)
Definition str_int (n : Z) : list ascii :=
  list_ascii_of_string (NilZero.string_of_uint (N.to_uint (Z.to_N n))).

(** [str(x)] for a float [x >= 0] holding a two-decimal amount: the whole
    part, a point, and the fraction without its trailing zero ([100.0],
    [0.5], [0.05], [1234.56]).  Python prints positional notation below
    1e16, which covers every amount of the table. *)
Definition str_amount (centavos : Z) : list ascii :=
  let whole := centavos / 100 in
  let frac := centavos mod 100 in
  str_int whole ++ dot_char ::
    (if frac mod 10 =? 0 then [digit_char (frac / 10)]
     else [digit_char (frac / 10); digit_char (frac mod 10)]).

(** [s.lstrip(c)] *)
Fixpoint lstrip (c : ascii) (s : list ascii) : list ascii :=
  match s with
  | x :: t => if Ascii.eqb x c then lstrip c t else s
  | [] => []
  end.

(** [s.replace(c, '')] *)
Definition remove_char (c : ascii) (s : list ascii) : list ascii :=
  filter (fun x => negb (Ascii.eqb x c)) s.

Definition is_digit (c : ascii) : bool :=
  let n := nat_of_ascii c in ((48 <=? n) && (n <=? 57))%nat.

Definition digit_value (c : ascii) : Z := Z.of_nat (nat_of_ascii c) - 48.

(** [int(c)] for one character. *)
Definition int_of_char (c : ascii) : res Z :=
  if is_digit c then Ok (digit_value c) else ValueError.

(** [s.lstrip('0').replace('.', '').replace('-', '')] *)
Definition cleaned (s : list ascii) : list ascii :=
  remove_char minus_char (remove_char dot_char (lstrip zero_char s)).

Definition get_first_digit (value : option Z) : res (option Z) :=
  match value with
  | None => Ok None
  | Some v =>
      if v <=? 0 then Ok None
      else
        let s := cleaned (str_amount (Z.abs v)) in
        match s with
        | [] => Ok None
        | c :: _ => bind (int_of_char c) (fun d => Ok (Some d))
        end
  end.

(** An amount that yields a leading digit: defined and positive. *)
Definition valid_amount (value : option Z) : bool :=
  match value with
  | Some v => 0 <? v
  | None => false
  end.

(** How many amounts of a series are valid. *)
Definition count_valid (values : list (option Z)) : nat :=
  List.length (filter valid_amount values).

Definition BENFORD_EXPECTED (d : Z) : Q :=
  match d with
  | 1 => 30.1%Q | 2 => 17.6%Q | 3 => 12.5%Q | 4 => 9.7%Q
  | 5 => 7.9%Q | 6 => 6.7%Q | 7 => 5.8%Q | 8 => 5.1%Q | 9 => 4.6%Q
  | _ => 0%Q
  end.

(** [range(1, 10)] *)
Definition digits : list Z := [1; 2; 3; 4; 5; 6; 7; 8; 9].

Record DigitEntry : Type := {
  digit : Z;
  observed : Q;
  expected : Q
}.

Record BenfordResult : Type := {
  chi2 : Q;
  pValue : float;
  significant : bool;
  digitDistribution : list DigitEntry
}.

(** [.dropna()] *)
Fixpoint dropna {A} (l : list (option A)) : list A :=
  match l with
  | [] => []
  | Some x :: t => x :: dropna t
  | None :: t => dropna t
  end.

(** [value_counts().reindex(range(1, 10), fill_value=0)] at one digit. *)
Definition digit_count (first_digits : list Z) (d : Z) : Z :=
  Z.of_nat (List.length (filter (Z.eqb d) first_digits)).

Definition neutral_result : BenfordResult :=
  {| chi2 := 0;
     pValue := 1.0%float;
     significant := false;
     digitDistribution :=
       map (fun d => {| digit := d; observed := 0; expected := BENFORD_EXPECTED d |})
         digits |}.

(** One round of the loop over the digits: the chi-squared contribution and
    the distribution entry. *)
Definition digit_step (first_digits : list Z) (total : Z)
    (acc : Q * list DigitEntry) (d : Z) : Q * list DigitEntry :=
  let '(chi2, digit_distribution) := acc in
  let observed_count := inject_Z (digit_count first_digits d) in
  let observed_pct :=
    (if 0 <? total then observed_count / inject_Z total * 100 else 0)%Q in
  let expected_pct := BENFORD_EXPECTED d in
  let expected_count := (inject_Z total * expected_pct / 100)%Q in
  let chi2 :=
    if Qgtb expected_count 0
    then (chi2 + (observed_count - expected_count) ^ 2 / expected_count)%Q
    else chi2 in
  (chi2,
   digit_distribution ++
     [{| digit := d; observed := Qround2 observed_pct; expected := expected_pct |}]).

Definition analysis_of_digits (first_digits : list Z) : BenfordResult :=
  if (List.length first_digits <? 50)%nat then neutral_result
  else
    let total := fold_right Z.add 0 (map (digit_count first_digits) digits) in
    let '(chi2, digit_distribution) :=
      fold_left (digit_step first_digits total) digits (0%Q, []) in
    let '(p_value, significant) :=
      if Qgtb chi2 20.09 then (0.01%float, true)
      else if Qgtb chi2 15.51 then (0.05%float, true)
      else (0.10%float, false) in
    {| chi2 := Qround2 chi2;
       pValue := p_value;
       significant := significant;
       digitDistribution := digit_distribution |}.

Definition calculate_benford_analysis (values : list (option Z)) : res BenfordResult :=
  bind (mapM get_first_digit values)
       (fun applied => Ok (analysis_of_digits (dropna applied))).

End Benford.

(** ** Per-deputy profiles and the two passes of [generate_deputies] *)

Module Deputies.
Import Py RoundNumber Benford.

(** A row of the expense table: the columns the scoring reads
    ([txNomeParlamentar], [sgPartido], [sgUF], [txtFornecedor], [vlrLiquido]);
    [None] is a missing cell. *)
Record Row : Type := {
  deputy : option string;
  row_party : option string;
  row_uf : option string;
  supplier : option string;
  value : option Z
}.

(** A row of the HHI table; a field is [None] when the table has no such
    column. *)
Record HhiRow : Type := {
  Deputado : string;
  HHI : option float;
  Nivel_Concentracao : option string
}.

Inductive level : Type := BAIXO | MEDIO | ALTO | CRITICO.

(** A float of numpy: finite, or what a division by zero leaves. *)
Inductive xreal : Type :=
| Fin (q : Q)
| PosInf
| NegInf
| NotANumber.

(** The evidence strings, with the numbers they print. *)
Inductive red_flag : Type :=
| HighConcentration (hhi : float)
| TopSupplierShare (pct : Q)
| RoundValues (pct : Q)
| BenfordDeviation (chi2 : Q)
| AbovePartyAverage (z : xreal)
| AboveStateAverage (z : xreal).

Record Supplier : Type := {
  s_name : string;
  s_value : Q;
  s_pct : Q
}.

(** The record of one deputy.  The z-scores are absent until the second
    pass.  Fields that only reshape the table (average ticket, supplier
    count and CNPJs, category and month breakdowns, enrichment) are left
    out. *)
Record Deputy : Type := {
  id : Z;
  name : string;
  party : string;
  uf : string;
  totalSpending : Q;
  transactionCount : Z;
  hhi_value : float;
  hhi_level : string;
  benford : BenfordResult;
  roundValuePct : Q;
  riskScore : float;
  riskLevel : level;
  topSuppliers : list Supplier;
  redFlags : list red_flag;
  zScoreParty : option xreal;
  zScoreState : option xreal
}.

(** *** pandas helpers *)

(** Stable insertion sort; [before x y] says that [x] must come before
    [y]. *)
Fixpoint insert_by {A} (before : A -> A -> bool) (x : A) (l : list A) : list A :=
  match l with
  | [] => [x]
  | y :: t => if before x y then x :: y :: t else y :: insert_by before x t
  end.

Definition sort_by {A} (before : A -> A -> bool) (l : list A) : list A :=
  fold_left (fun acc x => insert_by before x acc) l [].

(** Sorted distinct keys, as [groupby] and [mode] order them. *)
Fixpoint insert_key (k : string) (l : list string) : list string :=
  match l with
  | [] => [k]
  | y :: t =>
      match String.compare k y with
      | Lt => k :: y :: t
      | Eq => y :: t
      | Gt => y :: insert_key k t
      end
  end.

Definition sorted_keys (l : list (option string)) : list string :=
  fold_left (fun acc k => insert_key k acc) (dropna l) [].

Definition is_key (k : string) (c : option string) : bool :=
  match c with Some s => String.eqb s k | None => false end.

(** [expenses_df.groupby(deputy_col)]: one group per name, names in sorted
    order, rows without a name dropped. *)
Definition groupby (rows : list Row) : list (string * list Row) :=
  map (fun k => (k, filter (fun r => is_key k (deputy r)) rows))
    (sorted_keys (map deputy rows)).

(** [Series.mode().iloc[0]] when the mode exists: the most frequent value,
    the smallest one on a tie. *)
Definition mode_first (l : list (option string)) : option string :=
  let occurrences k := List.length (filter (is_key k) l) in
  fold_left (fun best k =>
               match best with
               | None => Some k
               | Some b => if (occurrences b <? occurrences k)%nat
                           then Some k else best
               end) (sorted_keys l) None.

(** [Series.sum()], skipping missing values. *)
Definition sum_values (l : list (option Z)) : Z :=
  fold_right Z.add 0 (dropna l).

Definition reais (centavos : Z) : Q := centavos # 100.

Definition lower_to_upper (c : ascii) : ascii :=
  let n := nat_of_ascii c in
  if ((97 <=? n) && (n <=? 122))%nat then ascii_of_nat (n - 32) else c.

(** [str.upper()] on ASCII text. *)
Definition upper (s : string) : string :=
  string_of_list_ascii (map lower_to_upper (list_ascii_of_string s)).

(** *** First pass *)

(** The HHI value and label of a deputy, 1500 and MEDIO when there is
    none. *)
Definition hhi_of (hhi_df : list HhiRow) (name : string) : float * string :=
  match filter (fun r => String.eqb (Deputado r) name) hhi_df with
  | r :: _ =>
      (match HHI r with Some h => h | None => 1500%float end,
       upper (match Nivel_Concentracao r with Some l => l | None => "MEDIO" end))
  | [] => (1500%float, "MEDIO")
  end.

(** "Determine risk level": the concentration tier and the base score. *)
Definition base_risk (hhi_value : float) : level * float :=
  if fgt hhi_value 3000 then (CRITICO, 0.9%float)
  else if fgt hhi_value 2500 then (ALTO, 0.7%float)
  else if fgt hhi_value 1500 then (MEDIO, 0.4%float)
  else (BAIXO, 0.2%float).

Fixpoint add_total (k : string) (v : Z) (m : list (string * Z)) : list (string * Z) :=
  match m with
  | [] => [(k, v)]
  | (k', a) :: t =>
      if String.eqb k' k then (k', a + v) :: t else (k', a) :: add_total k v t
  end.

(** [group.groupby(supplier_col)[value_col].sum()] *)
Definition supplier_totals (group : list Row) : list (string * Z) :=
  fold_left (fun m r =>
               match supplier r with
               | Some s => add_total s (match value r with Some v => v | None => 0 end) m
               | None => m
               end) group [].

(** The five largest suppliers, largest first, with their share of the
    total. *)
Definition top_suppliers_of (group : list Row) (total_spending : Q) : list Supplier :=
  map (fun '(supp_name, supp_value) =>
         {| s_name := supp_name;
            s_value := reais supp_value;
            s_pct := if Qgtb total_spending 0
                     then (reais supp_value / total_spending * 100)%Q else 0%Q |})
    (firstn 5 (sort_by (fun x y => snd y <? snd x) (supplier_totals group))).

(** [top_suppliers and top_suppliers[0]["pct"] > 50] *)
Definition top_share_above_50 (top_suppliers : list Supplier) : bool :=
  match top_suppliers with
  | s :: _ => Qgtb (s_pct s) 50
  | [] => false
  end.

(** The score of the first pass: the base score, plus the round-value and
    the Benford penalties, each capped at once. *)
Definition first_pass_score (base : float) (round_above_20 benford_significant : bool)
  : float :=
  let risk_score := base in
  let risk_score :=
    if round_above_20 then fmin (risk_score + 0.1)%float 1.0%float else risk_score in
  let risk_score :=
    if benford_significant then fmin (risk_score + 0.15)%float 1.0%float
    else risk_score in
  risk_score.

Definition first_pass_flags (hhi_value : float) (top_suppliers : list Supplier)
    (round_value_pct : Q) (benford_result : BenfordResult) : list red_flag :=
  (if fgt hhi_value 2500 then [HighConcentration hhi_value] else [])
  ++ match top_suppliers with
     | s :: _ => if Qgtb (s_pct s) 50 then [TopSupplierShare (s_pct s)] else []
     | [] => []
     end
  ++ (if Qgtb round_value_pct 20 then [RoundValues round_value_pct] else [])
  ++ (if significant benford_result then [BenfordDeviation (chi2 benford_result)]
      else []).

(** The body of the loop over the groups. *)
Definition first_pass (hhi_df : list HhiRow) (idx : nat) (name : string)
    (group : list Row) : res Deputy :=
  let values := map value group in
  let total_spending := reais (sum_values values) in
  let transaction_count := Z.of_nat (List.length group) in
  let round_value_pct := RoundNumber.round_value_pct values in
  let party := match mode_first (map row_party group) with
               | Some p => p | None => "N/A" end in
  let uf := match mode_first (map row_uf group) with
            | Some u => u | None => "N/A" end in
  let '(hhi_value, hhi_level) := hhi_of hhi_df name in
  let '(risk_level, risk_score) := base_risk hhi_value in
  let top_suppliers := top_suppliers_of group total_spending in
  bind (calculate_benford_analysis values) (fun benford_result =>
  Ok {| id := Z.of_nat idx + 1;
        name := name;
        party := party;
        uf := uf;
        totalSpending := total_spending;
        transactionCount := transaction_count;
        hhi_value := hhi_value;
        hhi_level := hhi_level;
        benford := benford_result;
        roundValuePct := round_value_pct;
        riskScore := first_pass_score risk_score (Qgtb round_value_pct 20)
                       (significant benford_result);
        riskLevel := risk_level;
        topSuppliers := top_suppliers;
        redFlags := first_pass_flags hhi_value top_suppliers round_value_pct
                      benford_result;
        zScoreParty := None;
        zScoreState := None |}).

Fixpoint first_pass_all (hhi_df : list HhiRow) (idx : nat)
    (groups : list (string * list Row)) : res (list Deputy) :=
  match groups with
  | [] => Ok []
  | (name, group) :: t =>
      bind (first_pass hhi_df idx name group) (fun d =>
      bind (first_pass_all hhi_df (S idx) t) (fun ds => Ok (d :: ds)))
  end.

(** What the first loop leaves in a record. *)
Definition first_pass_shape (d : Deputy) : Prop :=
  riskScore d
  = first_pass_score (snd (base_risk (hhi_value d))) (Qgtb (roundValuePct d) 20)
      (significant (benford d))
  /\ riskLevel d = fst (base_risk (hhi_value d)).

(** *** Activity filter *)

Definition MIN_SPENDING : Q := 50000.
Definition MIN_TRANSACTIONS : Z := 20.

Definition meets_floors (total_spending : Q) (transaction_count : Z) : bool :=
  Qgeb total_spending MIN_SPENDING && (MIN_TRANSACTIONS <=? transaction_count).

(** The condition of the list comprehension that drops inactive deputies. *)
Definition active (d : Deputy) : bool :=
  meets_floors (totalSpending d) (transactionCount d).

(** *** Peer statistics and the second pass *)

Record Stats : Type := {
  mean : Q;
  std : Q
}.

(** A dict from a key to the list of spendings, in insertion order. *)
Fixpoint dict_append (k : string) (v : Q) (m : list (string * list Q))
  : list (string * list Q) :=
  match m with
  | [] => [(k, [v])]
  | (k', vs) :: t =>
      if String.eqb k' k then (k', vs ++ [v]) :: t else (k', vs) :: dict_append k v t
  end.

Definition spending_by (key : Deputy -> string) (deputies : list Deputy)
  : list (string * list Q) :=
  fold_left (fun m d => dict_append (key d) (totalSpending d) m) deputies [].

(** The spendings of the deputies with key [k], in order: the entry of the
    dict at [k]. *)
Definition values_of (key : Deputy -> string) (k : string) (deputies : list Deputy)
  : list Q :=
  map totalSpending (filter (fun d => String.eqb (key d) k) deputies).

Fixpoint lookup {V} (k : string) (m : list (string * V)) : option V :=
  match m with
  | [] => None
  | (k', v) :: t => if String.eqb k' k then Some v else lookup k t
  end.

Definition Qsum (l : list Q) : Q := fold_right Qplus 0%Q l.

Definition np_mean (values : list Q) : Q :=
  (Qsum values / inject_Z (Z.of_nat (List.length values)))%Q.

(** A float division of numpy: a zero divisor gives an infinity or NaN. *)
Definition np_div (x y : Q) : xreal :=
  if Qeq_bool y 0
  then match (x ?= 0)%Q with
       | Gt => PosInf
       | Lt => NegInf
       | Eq => NotANumber
       end
  else Fin (x / y)%Q.

Definition xgt (z : xreal) (k : Q) : bool :=
  match z with
  | Fin q => Qgtb q k
  | PosInf => true
  | NegInf | NotANumber => false
  end.

Definition xround2 (z : xreal) : xreal :=
  match z with
  | Fin q => Fin (Qround2 q)
  | _ => z
  end.

(** The score of the second pass: top-supplier and z-score penalties, then
    rounding and the cap. *)
Definition second_pass_score (risk_score : float)
    (top_above_50 party_above_2 state_above_2 : bool) : float :=
  let risk_score := if top_above_50 then (risk_score + 0.10)%float else risk_score in
  let risk_score := if party_above_2 then (risk_score + 0.08)%float else risk_score in
  let risk_score := if state_above_2 then (risk_score + 0.08)%float else risk_score in
  fmin (round2 risk_score) 1.0%float.

(** "Update risk level based on new score". *)
Definition final_level (risk_score : float) : level :=
  if fge risk_score 0.75 then CRITICO
  else if fge risk_score 0.55 then ALTO
  else if fge risk_score 0.35 then MEDIO
  else BAIXO.

(** The score the two passes compute together, as a function of the base
    score and of the five triggers. *)
Definition risk_score_of (base : float)
    (round_above_20 benford_significant top_above_50 party_above_2 state_above_2 : bool)
  : float :=
  second_pass_score (first_pass_score base round_above_20 benford_significant)
    top_above_50 party_above_2 state_above_2.

Definition penalty (fires : bool) (amount : float) : float :=
  if fires then amount else 0%float.

(** The composition rule in the words of the specification: the base score
    plus the penalties that fire, capped at 1.0 once, at the end, and rounded
    to two decimals. *)
Definition composite_spec (base : float)
    (round_above_20 benford_significant top_above_50 party_above_2 state_above_2 : bool)
  : float :=
  round2 (fmin (base + penalty round_above_20 0.10 + penalty benford_significant 0.15
                + penalty top_above_50 0.10 + penalty party_above_2 0.08
                + penalty state_above_2 0.08)%float 1.0%float).

(** The range of scores of each final tier. *)
Definition in_tier_range (l : level) (score : float) : bool :=
  match l with
  | CRITICO => PrimFloat.leb 0.75 score
  | ALTO => PrimFloat.leb 0.55 score && PrimFloat.ltb score 0.75
  | MEDIO => PrimFloat.leb 0.35 score && PrimFloat.ltb score 0.55
  | BAIXO => PrimFloat.ltb score 0.35
  end.

(** The deputies the first loop builds, and those of them that pass the
    activity filter: the population of the peer statistics. *)
Definition first_pass_deputies (expenses_df : list Row) (hhi_df : list HhiRow)
  : list Deputy :=
  match first_pass_all hhi_df 0 (groupby expenses_df) with
  | Ok deputies => deputies
  | ValueError => []
  end.

Definition active_deputies (expenses_df : list Row) (hhi_df : list HhiRow)
  : list Deputy :=
  filter active (first_pass_deputies expenses_df hhi_df).

(** [(spending - stats[k]["mean"]) / stats[k]["std"]], 0.0 for an unknown
    key. *)
Definition z_score (stats : list (string * Stats)) (k : string) (spending : Q) : xreal :=
  match lookup k stats with
  | Some st => np_div (spending - mean st) (std st)
  | None => Fin 0
  end.

(** The body of the second loop. *)
Definition second_pass (party_stats state_stats : list (string * Stats)) (d : Deputy)
  : Deputy :=
  let spending := totalSpending d in
  let z_party := z_score party_stats (party d) spending in
  let z_state := z_score state_stats (uf d) spending in
  let risk_score :=
    second_pass_score (riskScore d) (top_share_above_50 (topSuppliers d))
      (xgt z_party 2) (xgt z_state 2) in
  {| id := id d;
     name := name d;
     party := party d;
     uf := uf d;
     totalSpending := totalSpending d;
     transactionCount := transactionCount d;
     hhi_value := hhi_value d;
     hhi_level := hhi_level d;
     benford := benford d;
     roundValuePct := roundValuePct d;
     riskScore := risk_score;
     riskLevel := final_level risk_score;
     topSuppliers := topSuppliers d;
     redFlags := redFlags d
                 ++ (if xgt z_party 2 then [AbovePartyAverage z_party] else [])
                 ++ (if xgt z_state 2 then [AboveStateAverage z_state] else []);
     zScoreParty := Some (xround2 z_party);
     zScoreState := Some (xround2 z_state) |}.

(** The placeholder records returned for an empty table. *)
Definition mock_deputy (i : Z) : Deputy :=
  {| id := i + 1;
     name := "Deputado " ++ string_of_list_ascii (str_int (i + 1));
     party := "PARTIDO";
     uf := "SP";
     totalSpending := inject_Z (1000000 - i * 50000);
     transactionCount := 500 - i * 30;
     hhi_value := 1500%float;
     hhi_level := "MEDIO";
     benford := {| chi2 := 10.5; pValue := 0.05%float; significant := false;
                   digitDistribution := [] |};
     roundValuePct := 5.0;
     riskScore := 0.3%float;
     riskLevel := MEDIO;
     topSuppliers := [];
     redFlags := [];
     zScoreParty := Some (Fin 0);
     zScoreState := Some (Fin 0) |}.

Section Numpy.

(** The square root of [np.std]; rationals have none of their own, so it is
    a parameter of the embedding. *)
Variable sqrt : Q -> Q.

(** [np.std]: the population standard deviation. *)
Definition np_std (values : list Q) : Q :=
  let m := np_mean values in
  sqrt (np_mean (map (fun x => (Qabs (x - m)) ^ 2)%Q values)).

(** The statistics of one peer group. *)
Definition group_stats (values : list Q) : Stats :=
  if (2 <=? List.length values)%nat
  then let m := np_mean values in
       let s := np_std values in
       {| mean := m; std := if Qgtb s 0 then s else 1%Q |}
  else {| mean := match values with v :: _ => v | [] => 0%Q end; std := 1%Q |}.

Definition stats_by (key : Deputy -> string) (deputies : list Deputy)
  : list (string * Stats) :=
  map (fun '(k, values) => (k, group_stats values)) (spending_by key deputies).

(** Everything after the first loop: the activity filter, the peer
    statistics of the deputies that are left, the second pass, and the sort
    by spending, largest first. *)
Definition finish (deputies : list Deputy) : list Deputy :=
  let deputies := filter active deputies in
  let party_stats := stats_by party deputies in
  let state_stats := stats_by uf deputies in
  sort_by (fun x y => Qgtb (totalSpending x) (totalSpending y))
    (map (second_pass party_stats state_stats) deputies).

Definition generate_deputies (expenses_df : list Row) (hhi_df : list HhiRow)
  : res (list Deputy) :=
  match expenses_df with
  | [] => Ok (map mock_deputy [0; 1; 2; 3; 4; 5; 6; 7; 8; 9])
  | _ :: _ =>
      bind (first_pass_all hhi_df 0 (groupby expenses_df)) (fun deputies =>
      Ok (finish deputies))
  end.

End Numpy.

End Deputies.

(** ** Inputs to run the script on *)

Module Fixtures.
Import Py Validation Deputies.

(** A computable lower approximation of the square root (four decimals),
    with which the pipeline runs on concrete tables. *)
Definition Qsqrt_floor (x : Q) : Q :=
  Z.sqrt (Qnum x * Zpos (Qden x) * 10 ^ 8) # (Qden x * 10 ^ 4).

Definition expense_columns : list string :=
  ["txNomeParlamentar"; "vlrLiquido"; "numAno"; "numMes"].

(** A one-row table whose month is 13. *)
Definition month_13 : DataFrame :=
  {| columns := expense_columns;
     rows := [[("txNomeParlamentar", Str "ANA"); ("vlrLiquido", Num 10000);
               ("numAno", Num 2024); ("numMes", Num 13)]] |}.

(** The same row with a valid month and a negative amount. *)
Definition negative_amount : DataFrame :=
  {| columns := expense_columns;
     rows := [[("txNomeParlamentar", Str "ANA"); ("vlrLiquido", Num (-10000));
               ("numAno", Num 2024); ("numMes", Num 12)]] |}.

Definition expense (who party uf whom : string) (centavos : Z) : Row :=
  {| deputy := Some who; row_party := Some party; row_uf := Some uf;
     supplier := Some whom; value := Some centavos |}.

(** ANA: 60 transactions, 15 of them round (9000.00), one supplier with 60%
    of the spend, every leading digit a 9. *)
Definition ana_rows : list Row :=
  repeat (expense "ANA" "PX" "SP" "GRAFICA" 912345) 36
  ++ repeat (expense "ANA" "PX" "SP" "POSTO" 912345) 9
  ++ repeat (expense "ANA" "PX" "SP" "POSTO" 900000) 15.

(** Six colleagues of the same party, in another state: 20 transactions of
    2600.37 each. *)
Definition colleague_rows (who : string) : list Row :=
  repeat (expense who "PX" "RJ" "HOTEL" 260037) 20.

Definition party_table : list Row :=
  flat_map colleague_rows ["BIA"; "CAIO"; "DUDA"] ++ ana_rows
  ++ flat_map colleague_rows ["EVA"; "FABIO"; "GIL"].

Definition hhi_table : list HhiRow :=
  [{| Deputado := "ANA"; HHI := Some 3500%float;
      Nivel_Concentracao := Some "Critico" |}].

(** LIA: 31 transactions, 7 of them negative round amounts (-100.00), no row
    in the HHI table. *)
Definition lia_rows : list Row :=
  repeat (expense "LIA" "PY" "MG" "HOTEL" 250037) 24
  ++ repeat (expense "LIA" "PY" "MG" "ESTORNO" (-10000)) 7.

(** NEI: 21 transactions over three suppliers, nothing round, no row in the
    HHI table. *)
Definition nei_rows : list Row :=
  repeat (expense "NEI" "PZ" "BA" "HOTEL" 260037) 7
  ++ repeat (expense "NEI" "PZ" "BA" "POSTO" 260037) 7
  ++ repeat (expense "NEI" "PZ" "BA" "GRAFICA" 260037) 7.

End Fixtures.

(** ** Order of the tiers *)

Module Tiers.
Import Deputies.

(** LOW < MEDIUM < HIGH < CRITICAL. *)
Definition level_rank (l : level) : Z :=
  match l with
  | BAIXO => 0
  | MEDIO => 1
  | ALTO => 2
  | CRITICO => 3
  end.

End Tiers.

(** ** The placeholder output *)

Module Mock.
Import Deputies.

(** What [generate_deputies] returns for an empty expense table. *)
Definition placeholders : list Deputy :=
  map mock_deputy [0; 1; 2; 3; 4; 5; 6; 7; 8; 9].

End Mock.

(** ** Cells of the auxiliary tables *)

Module Cells.
Import Py.

(** A numeric cell: a number, or NaN ([None]) when the value is missing. *)
Definition number : Type := option Q.

(** A text cell: a string, or NaN ([None]) when the value is missing. *)
Definition text : Type := option string.

(** [row.get(key, default)]: the cell when the table has the column, the
    default otherwise.  The outer [None] of a field stands for a column the
    table does not have. *)
Definition get {A} (cell : option A) (default : A) : A :=
  match cell with
  | Some v => v
  | None => default
  end.

(** [int(x)]: the number without its fraction; NaN raises [ValueError]. *)
Definition int_of (x : number) : res Z :=
  match x with
  | Some q => Ok (Z.quot (Qnum q) (Zpos (Qden q)))
  | None => ValueError
  end.

(** [str(x)] of a text cell. *)
Definition str_of (x : text) : string :=
  match x with
  | Some s => s
  | None => "nan"
  end.

(** [x > k]: false on NaN. *)
Definition gt (x : number) (k : Q) : bool :=
  match x with
  | Some q => Qgtb q k
  | None => false
  end.

End Cells.

(** ** Fraud flags ([generate_fraud_flags]) *)

Module FraudFlags.
Import Py Cells.

Record FraudRow : Type := {
  col_id : option number;
  col_Deputado : option text;
  col_Partido : option text;
  col_UF : option text;
  col_Score_Benford : option number;
  col_Chi2 : option number;
  col_Round_Pct : option number;
  col_HHI : option number;
  col_CNPJ_Mismatches : option number;
  col_Weekend_Pct : option number;
  col_Risk_Score_Final : option number;
  col_Risk_Category : option text
}.

(** The flag strings, with the numbers they print. *)
Inductive fraud_flag : Type :=
| BenfordFlag
| ConcentrationFlag
| RoundFlag (pct : number)
| MismatchFlag (n : Z).

Record Details : Type := {
  benfordDeviation : bool;
  benfordChi2 : number;
  roundValuePct : number;
  supplierConcentration : bool;
  hhiValue : number;
  cnpjMismatches : Z;
  weekendPct : number
}.

Record FraudFlag : Type := {
  deputyId : Z;
  deputyName : string;
  party : string;
  uf : string;
  flags : list fraud_flag;
  details : Details;
  riskScore : number;
  riskLevel : string
}.

(** "Build flags list". *)
Definition flags_of (d : Details) : list fraud_flag :=
  (if benfordDeviation d then [BenfordFlag] else [])
  ++ (if supplierConcentration d then [ConcentrationFlag] else [])
  ++ (if gt (roundValuePct d) 30 then [RoundFlag (roundValuePct d)] else [])
  ++ (if 0 <? cnpjMismatches d then [MismatchFlag (cnpjMismatches d)] else []).

(** The body of the loop over the rows. *)
Definition flag_of_row (row : FraudRow) : res FraudFlag :=
  bind (int_of (get (col_id row) (Some 0%Q))) (fun deputy_id =>
  bind (int_of (get (col_CNPJ_Mismatches row) (Some 0%Q))) (fun mismatches =>
  let d :=
    {| benfordDeviation := gt (get (col_Score_Benford row) (Some 0%Q)) 0.5;
       benfordChi2 := get (col_Chi2 row) (Some 0%Q);
       roundValuePct := get (col_Round_Pct row) (Some 0%Q);
       supplierConcentration := gt (get (col_HHI row) (Some 0%Q)) 2500;
       hhiValue := get (col_HHI row) (Some 0%Q);
       cnpjMismatches := mismatches;
       weekendPct := get (col_Weekend_Pct row) (Some 0%Q) |} in
  Ok {| deputyId := deputy_id;
        deputyName := str_of (get (col_Deputado row) (Some ""));
        party := str_of (get (col_Partido row) (Some ""));
        uf := str_of (get (col_UF row) (Some ""));
        flags := flags_of d;
        details := d;
        riskScore := get (col_Risk_Score_Final row) (Some 0%Q);
        riskLevel :=
          Deputies.upper (str_of (get (col_Risk_Category row) (Some "MEDIO"))) |})).

Definition no_column (row : FraudRow) : bool :=
  match col_id row, col_Deputado row, col_Partido row, col_UF row,
        col_Score_Benford row, col_Chi2 row, col_Round_Pct row, col_HHI row,
        col_CNPJ_Mismatches row, col_Weekend_Pct row, col_Risk_Score_Final row,
        col_Risk_Category row with
  | None, None, None, None, None, None, None, None, None, None, None, None => true
  | _, _, _, _, _, _, _, _, _, _, _, _ => false
  end.

(** [fraud_df.empty]: no row, or no column (the columns of a table are
    those of its rows). *)
Definition empty (fraud_df : list FraudRow) : bool :=
  match fraud_df with
  | [] => true
  | row :: _ => no_column row
  end.

Definition generate_fraud_flags (fraud_df : list FraudRow) : res (list FraudFlag) :=
  if empty fraud_df then Ok [] else mapM flag_of_row fraud_df.

(** The cells [int] is applied to are numbers. *)
Definition counts_defined (row : FraudRow) : Prop :=
  col_id row <> Some None /\ col_CNPJ_Mismatches row <> Some None.

Definition is_lower (c : ascii) : bool :=
  let n := nat_of_ascii c in ((97 <=? n) && (n <=? 122))%nat.

End FraudFlags.

(** ** CNPJ mismatches ([generate_mismatches]) *)

Module Mismatches.
Import Py Cells.

(** A row of the mismatch table, under both spellings of its columns. *)
Record MismatchRow : Type := {
  col_cnpj : option text;
  col_fornecedor_ceap : option text;
  col_fornecedor : option text;
  col_razao_social : option text;
  col_expense_category : option text;
  col_categoria : option text;
  col_cnae_principal : option text;
  col_total_value : option number;
  col_valor_total : option number;
  col_transaction_count : option number;
  col_num_transacoes : option number;
  col_deputy_count : option number;
  col_num_deputados : option number;
  col_reason : option text;
  col_motivo : option text;
  col_uf : option text
}.

Record Mismatch : Type := {
  cnpj : string;
  supplierName : string;
  razaoSocial : string;
  expenseCategory : string;
  cnaePrincipal : string;
  totalValue : number;
  transactionCount : Z;
  deputyCount : Z;
  reason : string;
  uf : string
}.

(** The body of the loop over the rows. *)
Definition mismatch_of_row (row : MismatchRow) : res Mismatch :=
  bind (int_of (get (col_transaction_count row)
                  (get (col_num_transacoes row) (Some 0%Q)))) (fun transactions =>
  bind (int_of (get (col_deputy_count row)
                  (get (col_num_deputados row) (Some 0%Q)))) (fun deputies =>
  Ok {| cnpj := str_of (get (col_cnpj row) (Some ""));
        supplierName :=
          str_of (get (col_fornecedor_ceap row) (get (col_fornecedor row) (Some "")));
        razaoSocial := str_of (get (col_razao_social row) (Some ""));
        expenseCategory :=
          str_of (get (col_expense_category row) (get (col_categoria row) (Some "")));
        cnaePrincipal := str_of (get (col_cnae_principal row) (Some ""));
        totalValue :=
          get (col_total_value row) (get (col_valor_total row) (Some 0%Q));
        transactionCount := transactions;
        deputyCount := deputies;
        reason := str_of (get (col_reason row) (get (col_motivo row) (Some "")));
        uf := str_of (get (col_uf row) (Some "")) |})).

Definition no_column (row : MismatchRow) : bool :=
  match col_cnpj row, col_fornecedor_ceap row, col_fornecedor row,
        col_razao_social row, col_expense_category row, col_categoria row,
        col_cnae_principal row, col_total_value row, col_valor_total row,
        col_transaction_count row, col_num_transacoes row, col_deputy_count row,
        col_num_deputados row, col_reason row, col_motivo row, col_uf row with
  | None, None, None, None, None, None, None, None, None, None, None, None, None,
    None, None, None => true
  | _, _, _, _, _, _, _, _, _, _, _, _, _, _, _, _ => false
  end.

(** [mismatch_df.empty] *)
Definition empty (mismatch_df : list MismatchRow) : bool :=
  match mismatch_df with
  | [] => true
  | row :: _ => no_column row
  end.

(** What the function returns.  [float] keeps a NaN total, and every
    comparison of Python with a NaN key is false: the sort then leaves the
    records in an order that the keys do not determine and that is not
    modelled, [Unranked]. *)
Inductive listing : Type :=
| Ranked (records : list Mismatch)
| Unranked (records : list Mismatch).

Definition is_number (x : number) : bool :=
  match x with Some _ => true | None => false end.

(** The sort key of a record whose total is a number. *)
Definition total_of (m : Mismatch) : Q := get (totalValue m) 0%Q.

(** [mismatches.sort(key=lambda x: x["totalValue"], reverse=True)]: on
    numbers a stable sort, largest first. *)
Definition sort_desc (mismatches : list Mismatch) : listing :=
  if forallb (fun m => is_number (totalValue m)) mismatches
  then Ranked (Deputies.sort_by (fun x y => Qgtb (total_of x) (total_of y))
                 mismatches)
  else Unranked mismatches.

Definition generate_mismatches (mismatch_df : list MismatchRow) : res listing :=
  if empty mismatch_df then Ok (Ranked [])
  else bind (mapM mismatch_of_row mismatch_df) (fun mismatches =>
       Ok (sort_desc mismatches)).

(** The cells [int] is applied to are numbers. *)
Definition counts_defined (row : MismatchRow) : Prop :=
  get (col_transaction_count row) (get (col_num_transacoes row) (Some 0%Q)) <> None
  /\ get (col_deputy_count row) (get (col_num_deputados row) (Some 0%Q)) <> None.

(** The total a row contributes. *)
Definition row_total (row : MismatchRow) : number :=
  get (col_total_value row) (get (col_valor_total row) (Some 0%Q)).

(** The total of the row is a number. *)
Definition total_defined (row : MismatchRow) : Prop := row_total row <> None.

End Mismatches.

(** ** Provenance of the source data ([generate_manifest]) *)

Module Manifest.
Import Py Validation.

(** The period of the manifest: ["unknown"] twice, the whole years
    [f"{min_year}-01"] to [f"{max_year}-12"], or the months
    [f"{min_year}-{min_month:02d}"] to [f"{max_year}-{max_month:02d}"]. *)
Inductive period : Type :=
| Unknown
| WholeYears (min_year max_year : Z)
| Months (min_year min_month max_year max_month : Z).

(** The part of ["source_data"] that is read from the table (the hash, size
    and date of the file and the time of the run are left out). *)
Record SourceData : Type := {
  source_period : period;
  record_count : Z;
  total_value_brl : Z
}.

(** The year and month columns as [pd.read_csv] reads columns of digits:
    numbers, and NaN where a cell is empty. *)
Definition is_number (c : cell) : bool :=
  match c with Str _ => false | _ => true end.

Definition numeric_dates (df : DataFrame) : bool :=
  forallb is_number (column "numAno" df)
  && forallb is_number (column "numMes" df).

(** [int(x)] of a minimum or maximum: NaN raises. *)
Definition int_cell (c : cell) : res Z :=
  match c with
  | Num z => Ok z
  | _ => ValueError
  end.

(** [expenses_df["numAno"] == year] *)
Definition in_year (year : Z) (r : row) : bool :=
  match get "numAno" r with
  | Num z => z =? year
  | _ => false
  end.

Definition months_of_year (df : DataFrame) (year : Z) : list cell :=
  map (get "numMes") (filter (in_year year) (rows df)).

Definition data_period (df : DataFrame) : res period :=
  if str_in "numAno" (columns df)
  then
    bind (int_cell (series_fold Z.min (column "numAno" df))) (fun min_year =>
    bind (int_cell (series_fold Z.max (column "numAno" df))) (fun max_year =>
    if str_in "numMes" (columns df)
    then
      bind (int_cell (series_fold Z.min (months_of_year df min_year)))
        (fun min_month =>
      bind (int_cell (series_fold Z.max (months_of_year df max_year)))
        (fun max_month =>
      Ok (Months min_year min_month max_year max_month)))
    else Ok (WholeYears min_year max_year)))
  else Ok Unknown.

(** [Series.sum()], in centavos. *)
Definition sum_cells (l : list cell) : Z :=
  fold_right (fun c acc => match c with Num z => z + acc | _ => acc end) 0 l.

Definition source_data (df : DataFrame) : res SourceData :=
  if empty df
  then Ok {| source_period := Unknown; record_count := 0; total_value_brl := 0 |}
  else
    bind (data_period df) (fun p =>
    Ok {| source_period := p;
          record_count := Z.of_nat (List.length (rows df));
          total_value_brl :=
            if str_in (value_col_of df) (columns df)
            then sum_cells (column (value_col_of df) df) else 0 |}).

End Manifest.

(** ** Summary metrics ([generate_aggregations]) *)

Module Aggregations.
Import Py Benford Deputies.

(** The counters of ["meta"] that are read from the columns of [Row]
    (the supplier count, the period and the time of the run are left
    out). *)
Record Meta : Type := {
  meta_totalTransactions : Z;
  meta_totalSpending : Q;
  meta_totalDeputies : Z
}.

(** A record of ["byParty"] or ["byState"]: the party or state, ["value"],
    ["deputyCount"] and ["avgPerDeputy"]. *)
Record GroupTotal : Type := {
  g_key : string;
  g_value : Q;
  g_deputyCount : Z;
  g_avgPerDeputy : xreal
}.

(** ["byMonth"] and ["byCategory"] read the year, month and category
    columns and are left out. *)
Record Aggregations : Type := {
  meta : Meta;
  byParty : list GroupTotal;
  byState : list GroupTotal
}.

(** [Series.nunique()]: distinct values, missing ones not counted. *)
Definition nunique (l : list (option string)) : Z :=
  Z.of_nat (List.length (sorted_keys l)).

(** [df.groupby(col).agg({value_col: "sum", deputy_col: "nunique"})], the
    average per deputy rounded to two places, sorted by value, largest
    first (groups of equal value stay in key order here; pandas leaves
    their order open). *)
Definition agg_by (col : Row -> option string) (df : list Row) : list GroupTotal :=
  sort_by (fun x y => Qgtb (g_value x) (g_value y))
    (map (fun k =>
            let rows := filter (fun r => is_key k (col r)) df in
            let v := reais (sum_values (map value rows)) in
            let n := nunique (map deputy rows) in
            {| g_key := k;
               g_value := v;
               g_deputyCount := n;
               g_avgPerDeputy := xround2 (np_div v (inject_Z n)) |})
       (sorted_keys (map col df))).

Definition generate_aggregations (expenses_df : list Row) : Aggregations :=
  match expenses_df with
  | [] =>
      {| meta := {| meta_totalTransactions := 630552;
                    meta_totalSpending := 681700000;
                    meta_totalDeputies := 847 |};
         byParty := [];
         byState := [] |}
  | _ :: _ =>
      {| meta := {| meta_totalTransactions := Z.of_nat (List.length expenses_df);
                    meta_totalSpending := reais (sum_values (map value expenses_df));
                    meta_totalDeputies := nunique (map deputy expenses_df) |};
         byParty := agg_by row_party expenses_df;
         byState := agg_by row_uf expenses_df |}
  end.

(** The amount a row adds to a sum. *)
Definition amount (r : Row) : Z :=
  match value r with Some z => z | None => 0 end.

Definition has (col : Row -> option string) (r : Row) : bool :=
  match col r with Some _ => true | None => false end.

End Aggregations.

(** ** The peer statistics in binary64 ([generate_deputies], second half)

    The statistics and the z-scores on the floats that the records hold,
    as numpy computes them. *)

Module PeerStatistics.
Import Py.

(** The fields of a deputy record that the statistics read. *)
Record Peer : Type := {
  peer_party : string;
  peer_uf : string;
  peer_spending : float
}.

Record Stats : Type := {
  mean : float;
  std : float
}.

(** [r[0] + a[i], ..., r[7] + a[i + 7]] *)
Fixpoint add_each (r a : list float) : list float :=
  match r, a with
  | x :: r', y :: a' => (x + y)%float :: add_each r' a'
  | _, _ => r
  end.

(** The loop over the blocks of eight that follow the first. *)
Fixpoint add_blocks (blocks : nat) (r a : list float) : list float * list float :=
  match blocks with
  | O => (r, a)
  | S blocks' => add_blocks blocks' (add_each r (firstn 8 a)) (skipn 8 a)
  end.

(** The sum of 8 to 128 values: eight accumulators, then the rest one by
    one. *)
Definition block_sum (a : list float) : float :=
  let '(r, rest) :=
    add_blocks (List.length a / 8 - 1) (firstn 8 a) (skipn 8 a) in
  match r with
  | [r0; r1; r2; r3; r4; r5; r6; r7] =>
      fold_left PrimFloat.add rest
        (((r0 + r1) + (r2 + r3)) + ((r4 + r5) + (r6 + r7)))%float
  | _ => fold_left PrimFloat.add rest (-0)%float
  end.

(** numpy's pairwise summation of a contiguous array: a plain loop from
    [-0.0] under eight values, one block up to 128, two halves above (the
    first a multiple of eight long). *)
Fixpoint pairwise_sum (depth : nat) (a : list float) : float :=
  let n := List.length a in
  if (n <? 8)%nat then fold_left PrimFloat.add a (-0)%float
  else if (n <=? 128)%nat then block_sum a
  else
    match depth with
    | O => block_sum a
    | S depth' =>
        let n2 := (n / 2 - (n / 2) mod 8)%nat in
        (pairwise_sum depth' (firstn n2 a) + pairwise_sum depth' (skipn n2 a))%float
    end.

(** [np.add.reduce]: the identity 0, to which the pairwise sum is added.
    A list of [n] values is halved fewer than [n] times. *)
Definition np_sum (a : list float) : float :=
  (0 + pairwise_sum (List.length a) a)%float.

Definition count (a : list float) : float :=
  PrimFloat.of_uint63 (Uint63.of_Z (Z.of_nat (List.length a))).

(** [np.mean] *)
Definition np_mean (a : list float) : float := (np_sum a / count a)%float.

(** [np.std]: the square root of the mean of the squared deviations from
    [np.mean]. *)
Definition np_std (a : list float) : float :=
  let arrmean := np_mean a in
  let x := map (fun v => (v - arrmean)%float) a in
  let x := map (fun d => (d * d)%float) x in
  PrimFloat.sqrt (np_sum x / count a).

(** A dict from a key to the list of spendings, in insertion order. *)
Fixpoint dict_append (k : string) (v : float) (m : list (string * list float))
  : list (string * list float) :=
  match m with
  | [] => [(k, [v])]
  | (k', vs) :: t =>
      if String.eqb k' k then (k', vs ++ [v]) :: t else (k', vs) :: dict_append k v t
  end.

Definition spending_by (key : Peer -> string) (deputies : list Peer)
  : list (string * list float) :=
  fold_left (fun m d => dict_append (key d) (peer_spending d) m) deputies [].

(** The statistics of one peer group. *)
Definition group_stats (values : list float) : Stats :=
  if (2 <=? List.length values)%nat
  then let m := np_mean values in
       let s := np_std values in
       {| mean := m; std := if fgt s 0 then s else 1%float |}
  else {| mean := match values with v :: _ => v | [] => 0%float end;
          std := 1%float |}.

Definition stats_by (key : Peer -> string) (deputies : list Peer)
  : list (string * Stats) :=
  map (fun '(k, values) => (k, group_stats values)) (spending_by key deputies).

Definition z_score (stats : list (string * Stats)) (k : string) (spending : float)
  : float :=
  match Deputies.lookup k stats with
  | Some st => ((spending - mean st) / std st)%float
  | None => 0%float
  end.

(** The z-scores of the second loop, before [round(z, 2)]: party, then
    state. *)
Definition z_scores (deputies : list Peer) : list (float * float) :=
  let party_stats := stats_by peer_party deputies in
  let state_stats := stats_by peer_uf deputies in
  map (fun d => (z_score party_stats (peer_party d) (peer_spending d),
                 z_score state_stats (peer_uf d) (peer_spending d)))
    deputies.

End PeerStatistics.

(** ** More inputs to run the script on *)

Module Samples.
Import Cells FraudFlags.

(** A fraud table with every column: one deputy with all four flags, one
    with none and a lower-case category. *)
Definition fraud_table : list FraudRow :=
  [{| col_id := Some (Some 7%Q);
      col_Deputado := Some (Some "ANA");
      col_Partido := Some (Some "PX");
      col_UF := Some (Some "SP");
      col_Score_Benford := Some (Some 0.8%Q);
      col_Chi2 := Some (Some 31.2%Q);
      col_Round_Pct := Some (Some 42.5%Q);
      col_HHI := Some (Some 3500%Q);
      col_CNPJ_Mismatches := Some (Some 2%Q);
      col_Weekend_Pct := Some (Some 12.5%Q);
      col_Risk_Score_Final := Some (Some 0.95%Q);
      col_Risk_Category := Some (Some "Critico") |};
   {| col_id := Some (Some 9%Q);
      col_Deputado := Some (Some "BIA");
      col_Partido := Some (Some "PX");
      col_UF := Some (Some "RJ");
      col_Score_Benford := Some (Some 0.5%Q);
      col_Chi2 := Some (Some 4.1%Q);
      col_Round_Pct := Some (Some 30%Q);
      col_HHI := Some (Some 2500%Q);
      col_CNPJ_Mismatches := Some (Some 0%Q);
      col_Weekend_Pct := Some None;
      col_Risk_Score_Final := Some (Some 0.2%Q);
      col_Risk_Category := Some (Some "baixo") |}].

(** Three mismatch rows under the Portuguese column names, two of them with
    the same total. *)
Definition mismatch_row (who : string) (total : Q) : Mismatches.MismatchRow :=
  {| Mismatches.col_cnpj := Some (Some "00000000000191");
     Mismatches.col_fornecedor_ceap := None;
     Mismatches.col_fornecedor := Some (Some who);
     Mismatches.col_razao_social := Some None;
     Mismatches.col_expense_category := None;
     Mismatches.col_categoria := Some (Some "COMBUSTIVEIS");
     Mismatches.col_cnae_principal := Some (Some "4731800");
     Mismatches.col_total_value := None;
     Mismatches.col_valor_total := Some (Some total);
     Mismatches.col_transaction_count := None;
     Mismatches.col_num_transacoes := Some (Some 12%Q);
     Mismatches.col_deputy_count := None;
     Mismatches.col_num_deputados := Some (Some 3%Q);
     Mismatches.col_reason := None;
     Mismatches.col_motivo := Some (Some "CNAE");
     Mismatches.col_uf := Some (Some "SP") |}.

Definition mismatch_table : list Mismatches.MismatchRow :=
  [mismatch_row "POSTO A" 1500.5%Q; mismatch_row "POSTO B" 9000%Q;
   mismatch_row "POSTO C" 1500.5%Q].

(** Deputies of one party and state with one and the same spending. *)
Definition same_spending (n : nat) (spending : float) : list PeerStatistics.Peer :=
  repeat {| PeerStatistics.peer_party := "PX"; PeerStatistics.peer_uf := "RJ";
            PeerStatistics.peer_spending := spending |} n.

(** A deputy alone in her party and state. *)
Definition alone : PeerStatistics.Peer :=
  {| PeerStatistics.peer_party := "PY"; PeerStatistics.peer_uf := "SP";
     PeerStatistics.peer_spending := 90000.5 |}.

(** An expense table of three records over two years. *)
Definition dated_row (who : string) (centavos year month : Z) : Validation.row :=
  [("txNomeParlamentar", Validation.Str who); ("vlrLiquido", Validation.Num centavos);
   ("numAno", Validation.Num year); ("numMes", Validation.Num month)].

Definition dated_table : Validation.DataFrame :=
  {| Validation.columns := Fixtures.expense_columns;
     Validation.rows := [dated_row "ANA" 10000 2024 3; dated_row "BIA" 25050 2023 11;
                         dated_row "ANA" 990 2024 1] |}.

End Samples.

(** * Properties *)

(** ** Validation *)

Section ValidationFacts.
Import Py Validation Fixtures.

Variable schema_stage : DataFrame -> list issue.

Lemma stage3_errors_verdict df :
  (List.length (stage3_errors df) =? 0)%nat
  = negb (str_in "numMes" (columns df)) || (invalid_months df =? 0).
Proof.
  unfold stage3_errors.
  destruct (str_in "numMes" (columns df)); [| reflexivity].
  assert (Hn : 0 <= invalid_months df)
    by (unfold invalid_months, count; apply Nat2Z.is_nonneg).
  destruct (0 <? invalid_months df) eqn:Hpos; simpl.
  - apply Z.ltb_lt in Hpos. symmetry. apply Z.eqb_neq. lia.
  - apply Z.ltb_ge in Hpos. symmetry. apply Z.eqb_eq. lia.
Qed.

Lemma no_missing_column_numMes df :
  no_missing_column df = true -> str_in "numMes" (columns df) = true.
Proof.
  unfold no_missing_column, stage1. simpl.
  destruct (str_in (deputy_col_of df) (columns df)); simpl; [| discriminate].
  destruct (str_in (value_col_of df) (columns df)); simpl; [| discriminate].
  destruct (str_in "numAno" (columns df)); simpl; [| discriminate].
  destruct (str_in "numMes" (columns df)); simpl; [reflexivity | discriminate].
Qed.

Lemma validate_expenses_verdict df :
  fst (fst (validate_expenses schema_stage df))
  = empty df || (no_missing_column df && (invalid_months df =? 0)).
Proof.
  unfold validate_expenses.
  destruct (empty df); [reflexivity |]. simpl orb.
  destruct (no_missing_column df) eqn:Hcols.
  - pose proof (no_missing_column_numMes df Hcols) as Hmes.
    unfold no_missing_column in Hcols.
    destruct (stage1 df); [| discriminate]. simpl fst.
    rewrite stage3_errors_verdict, Hmes. reflexivity.
  - unfold no_missing_column in Hcols.
    destruct (stage1 df); [discriminate | reflexivity].
Qed.

(** C5, as the script has it.  A non-empty table fails validation exactly
    when a required column is missing or some month lies outside 1..12; the
    verdict does not depend on the warnings (the schema stage among them);
    [main] stops on a failed validation and goes on otherwise.  So an
    out-of-range month is an error that blocks processing, while the other
    data-quality findings are warnings. *)
Theorem invalid_months_fail_validation df :
  fst (fst (validate_expenses schema_stage df))
    = empty df || (no_missing_column df && (invalid_months df =? 0))
  /\ fst (fst (validate_expenses schema_stage df))
     = fst (fst (validate_expenses (fun _ => []) df))
  /\ main schema_stage df
     = (if empty df || (no_missing_column df && (invalid_months df =? 0))
        then Proceeded (snd (validate_expenses schema_stage df))
        else ValidationFailed (snd (fst (validate_expenses schema_stage df)))
               (snd (validate_expenses schema_stage df))).
Proof.
  split; [apply validate_expenses_verdict |].
  split.
  - unfold validate_expenses.
    destruct (empty df); [reflexivity |].
    destruct (stage1 df); reflexivity.
  - rewrite <- validate_expenses_verdict. unfold main.
    destruct (validate_expenses schema_stage df) as [[ok errors] warnings].
    simpl. destruct ok; reflexivity.
Qed.

End ValidationFacts.

(** C5, as the specification has it, fails: the table [month_13] has every
    required column and one row with month 13; validation reports the month
    as an error, fails, and [main] stops.  A negative amount in the same
    table is a warning and processing goes on. *)
Lemma month_13_stops_the_run :
  Validation.validate_expenses (fun _ => []) Fixtures.month_13
    = (false, [Validation.InvalidMonths 1], [])
  /\ Validation.main (fun _ => []) Fixtures.month_13
     = Validation.ValidationFailed [Validation.InvalidMonths 1] []
  /\ Validation.main (fun _ => []) Fixtures.negative_amount
     = Validation.Proceeded [Validation.NegativeValues 1 "vlrLiquido"].
Proof. repeat split; vm_compute; reflexivity. Qed.

(** ** Round-number detector *)

Section RoundNumberFacts.
Import RoundNumber.

Lemma is_round_value_spec (v : Z) :
  is_round_value (Some v) = true <-> exists k, v = k * 10000.
Proof.
  unfold is_round_value, pymod. rewrite andb_true_iff, !Z.eqb_eq. split.
  - intros [_ H]. change (100 * 100) with 10000 in H. exists (v / 10000).
    pose proof (Z.div_mod v 10000 ltac:(lia)). lia.
  - intros [k ->]. split.
    + replace (k * 10000) with (k * 100 * (1 * 100)) by lia. apply Z.mod_mul. lia.
    + replace (100 * 100) with 10000 by lia. apply Z.mod_mul. lia.
Qed.

(** C10.  A negative amount that is a whole multiple of 100 (-100.00 times
    [k], in centavos) is classified as round, and it adds one to the round
    count from which the round-value percentage of [generate_deputies] is
    computed; the percentage divides that count by the number of
    transactions, whatever their sign. *)
Theorem negative_round_amounts_count (k : positive) (values : list (option Z)) :
  let v := Some (- (Zpos k * 10000)) in
  is_round_value v = true
  /\ round_count (v :: values) = round_count values + 1
  /\ round_value_pct (v :: values)
     = (inject_Z (round_count values + 1)
        / inject_Z (Z.of_nat (S (List.length values))) * 100)%Q.
Proof.
  intros v.
  assert (Hv : is_round_value v = true).
  { apply is_round_value_spec. exists (- Zpos k). lia. }
  assert (Hc : round_count (v :: values) = round_count values + 1).
  { unfold round_count. cbn [filter]. rewrite Hv. cbn [List.length]. lia. }
  split; [exact Hv |]. split; [exact Hc |].
  unfold round_value_pct. rewrite Hc. cbn [List.length].
  destruct (0 <? Z.of_nat (S (List.length values))) eqn:Hpos; [reflexivity |].
  apply Z.ltb_ge in Hpos. lia.
Qed.

End RoundNumberFacts.

(** ** Digit-anomaly tester *)

Section BenfordFacts.
Import Py Benford.

Lemma digit_char_is_digit d : 0 <= d <= 9 -> is_digit (digit_char d) = true.
Proof.
  intros H.
  assert (Hd : d = 0 \/ d = 1 \/ d = 2 \/ d = 3 \/ d = 4 \/ d = 5 \/ d = 6
               \/ d = 7 \/ d = 8 \/ d = 9) by lia.
  repeat (destruct Hd as [-> | Hd]; [reflexivity |]). subst d. reflexivity.
Qed.

Lemma string_of_uint_digits d :
  Forall (fun c => is_digit c = true)
    (list_ascii_of_string (NilEmpty.string_of_uint d)).
Proof.
  induction d; simpl; constructor; try reflexivity; assumption.
Qed.

Lemma str_int_digits n : Forall (fun c => is_digit c = true) (str_int n).
Proof.
  unfold str_int, NilZero.string_of_uint.
  destruct (N.to_uint (Z.to_N n)) eqn:E;
    try (rewrite <- E; apply string_of_uint_digits).
  repeat constructor.
Qed.

Lemma to_uint_head p : forall u, Pos.to_uint p <> Decimal.D0 u.
Proof.
  intros u E.
  assert (Hn : Decimal.unorm (Pos.to_uint p) = Pos.to_uint p).
  { rewrite <- DecimalPos.Unsigned.to_of, DecimalPos.Unsigned.of_to. reflexivity. }
  rewrite E, DecimalFacts.unorm_D0 in Hn. unfold Decimal.unorm in Hn.
  destruct (Decimal.nzhead u) eqn:Hz;
    try (apply (DecimalFacts.nzhead_nonzero u u); congruence).
  injection Hn as <-.
  apply (DecimalPos.Unsigned.to_uint_nonzero p). exact E.
Qed.

Lemma int_of_char_digit c : is_digit c = true -> int_of_char c = Ok (digit_value c).
Proof. unfold int_of_char. intros ->. reflexivity. Qed.

Lemma str_int_head n :
  1 <= n ->
  exists c t, str_int n = c :: t /\ is_digit c = true /\ 1 <= digit_value c <= 9.
Proof.
  intros Hn. unfold str_int, NilZero.string_of_uint.
  destruct (Z.to_N n) as [| p] eqn:E; [lia |]. simpl N.to_uint.
  pose proof (to_uint_head p) as Hhead.
  pose proof (DecimalPos.Unsigned.to_uint_nonnil p) as Hnil.
  destruct (Pos.to_uint p) as [| u | u | u | u | u | u | u | u | u | u];
    [ contradiction | exfalso; apply (Hhead u); reflexivity | .. ];
    simpl; eexists; eexists; (split; [reflexivity |]);
    (split; [reflexivity | vm_compute; split; discriminate]).
Qed.

Lemma remove_char_digits c s :
  is_digit c = false ->
  Forall (fun x => is_digit x = true) s -> remove_char c s = s.
Proof.
  intros Hc. induction 1 as [| x t Hx _ IH]; [reflexivity |].
  unfold remove_char in *. simpl.
  destruct (Ascii.eqb x c) eqn:E.
  - apply Ascii.eqb_eq in E. congruence.
  - simpl. now rewrite IH.
Qed.

Lemma cleaned_digits s :
  Forall (fun x => is_digit x = true) s -> lstrip zero_char s = s -> cleaned s = s.
Proof.
  intros Hs Hl. unfold cleaned. rewrite Hl.
  rewrite (remove_char_digits dot_char) by (reflexivity || assumption).
  now apply remove_char_digits.
Qed.

(** What is left of [whole ++ "." ++ frac] starts with a digit. *)
Lemma cleaned_head whole frac :
  Forall (fun x => is_digit x = true) whole ->
  Forall (fun x => is_digit x = true) frac -> frac <> [] ->
  exists c t, cleaned (whole ++ dot_char :: frac) = c :: t /\ is_digit c = true.
Proof.
  intros Hw Hf Hne. induction Hw as [| x w Hx Hw IH].
  - simpl. unfold cleaned. simpl. fold (remove_char dot_char frac).
    rewrite (remove_char_digits dot_char), (remove_char_digits minus_char)
      by (reflexivity || assumption).
    destruct frac as [| c t]; [contradiction |].
    exists c, t. split; [reflexivity |]. now inversion Hf.
  - unfold cleaned in *. simpl.
    destruct (Ascii.eqb x zero_char) eqn:E; [exact IH |].
    assert (Hd : Ascii.eqb x dot_char = false).
    { destruct (Ascii.eqb x dot_char) eqn:D; [| reflexivity].
      apply Ascii.eqb_eq in D. subst x. discriminate. }
    assert (Hm : Ascii.eqb x minus_char = false).
    { destruct (Ascii.eqb x minus_char) eqn:D; [| reflexivity].
      apply Ascii.eqb_eq in D. subst x. discriminate. }
    unfold remove_char. simpl. rewrite Hd. simpl. rewrite Hm. simpl.
    eexists; eexists; split; [reflexivity | exact Hx].
Qed.

Lemma str_amount_shape v :
  0 <= v ->
  exists frac, str_amount v = str_int (v / 100) ++ dot_char :: frac
               /\ Forall (fun x => is_digit x = true) frac /\ frac <> [].
Proof.
  intros Hv. unfold str_amount.
  pose proof (Z.mod_pos_bound v 100 ltac:(lia)) as Hf.
  remember (v mod 100) as frac eqn:Efrac. clear Efrac.
  assert (H1 : 0 <= frac / 10 <= 9).
  { split; [apply Z.div_pos; lia |].
    apply Z.lt_succ_r. apply Z.div_lt_upper_bound; lia. }
  pose proof (Z.mod_pos_bound frac 10 ltac:(lia)) as H2.
  destruct (frac mod 10 =? 0); eexists; (split; [reflexivity |]); split;
    try discriminate;
    repeat constructor; apply digit_char_is_digit; lia.
Qed.

(** [get_first_digit] never raises; it yields a digit exactly for the
    defined positive amounts. *)
Lemma get_first_digit_total value :
  exists r, get_first_digit value = Ok r
            /\ (match r with Some _ => true | None => false end) = valid_amount value.
Proof.
  destruct value as [v |]; simpl; [| exists None; split; reflexivity].
  destruct (v <=? 0) eqn:Hle.
  - exists None. split; [reflexivity |].
    apply Z.leb_le in Hle. symmetry. apply Z.ltb_ge. lia.
  - apply Z.leb_gt in Hle.
    destruct (str_amount_shape (Z.abs v) ltac:(lia)) as (frac & -> & Hf & Hne).
    destruct (cleaned_head (str_int (Z.abs v / 100)) frac
                (str_int_digits (Z.abs v / 100)) Hf Hne) as (c & t & Hc & Hd).
    rewrite Hc.
    rewrite (int_of_char_digit c Hd). simpl.
    eexists. split; [reflexivity |]. symmetry. apply Z.ltb_lt. lia.
Qed.

Lemma apply_get_first_digit values :
  exists applied, mapM get_first_digit values = Ok applied
                  /\ List.length (dropna applied) = count_valid values.
Proof.
  induction values as [| v t (applied & Happ & Hlen)].
  - exists []. split; reflexivity.
  - destruct (get_first_digit_total v) as (r & Hr & Hv).
    exists (r :: applied). simpl. rewrite Hr, Happ. simpl.
    split; [reflexivity |].
    unfold count_valid in *. simpl. rewrite <- Hv.
    destruct r; simpl; congruence.
Qed.

Lemma calculate_benford_analysis_total values :
  exists r, calculate_benford_analysis values = Ok r.
Proof.
  unfold calculate_benford_analysis.
  destruct (apply_get_first_digit values) as (applied & -> & _).
  simpl. eexists. reflexivity.
Qed.

(** C3, as the script has it.  With fewer than 50 valid (defined, positive)
    amounts the analysis returns the neutral result: statistic 0, p-value
    1.0, not significant, and zero observed frequency for each digit 1..9
    against the Benford reference. *)
Theorem small_sample_is_neutral (values : list (option Z)) :
  (count_valid values < 50)%nat ->
  calculate_benford_analysis values = Ok neutral_result
  /\ significant neutral_result = false
  /\ pValue neutral_result = 1.0%float
  /\ chi2 neutral_result = 0%Q
  /\ digitDistribution neutral_result
     = map (fun d => {| digit := d; observed := 0; expected := BENFORD_EXPECTED d |})
         [1; 2; 3; 4; 5; 6; 7; 8; 9].
Proof.
  intros Hsmall. split; [| repeat split].
  unfold calculate_benford_analysis.
  destruct (apply_get_first_digit values) as (applied & -> & Hlen).
  simpl. unfold analysis_of_digits. rewrite Hlen.
  apply Nat.ltb_lt in Hsmall. rewrite Hsmall. reflexivity.
Qed.

Lemma small_sample_is_neutral_witness :
  calculate_benford_analysis (repeat (Some 912345) 49) = Ok neutral_result
  /\ significant neutral_result = false
  /\ pValue neutral_result = 1.0%float
  /\ chi2 neutral_result = 0%Q
  /\ digitDistribution neutral_result
     = map (fun d => {| digit := d; observed := 0; expected := BENFORD_EXPECTED d |})
         [1; 2; 3; 4; 5; 6; 7; 8; 9].
Proof.
  apply (small_sample_is_neutral (repeat (Some 912345) 49)).
  vm_compute. lia.
Defined.

(** C3, as the specification has it, fails: on 49 valid amounts the reported
    p-value is 1.0, not 0.10. *)
Lemma p_value_of_49_amounts :
  exists r, calculate_benford_analysis (repeat (Some 912345) 49) = Ok r
            /\ count_valid (repeat (Some 912345) 49) = 49%nat
            /\ significant r = false
            /\ pValue r = 1.0%float
            /\ PrimFloat.eqb (pValue r) 0.10%float = false.
Proof. eexists. repeat split; vm_compute; reflexivity. Qed.

(** C4, on the script: the first digit taken for 0.05 is 0, and so it is
    for every amount from 0.01 to 0.09; the zero left of the point is
    stripped, the zero right of it is not. *)
Theorem first_digit_of_small_amounts_is_zero :
  get_first_digit (Some 5) = Ok (Some 0)
  /\ map (fun v => get_first_digit (Some v)) [1; 2; 3; 4; 5; 6; 7; 8; 9]
     = repeat (Ok (Some 0)) 9
  /\ str_amount 5 = list_ascii_of_string "0.05".
Proof. repeat split; vm_compute; reflexivity. Qed.

(** From 1.00 upwards the digit taken is the leading one of the whole part,
    between 1 and 9; amounts that are missing or not positive yield none. *)
Lemma get_first_digit_whole v :
  100 <= v -> exists d, get_first_digit (Some v) = Ok (Some d) /\ 1 <= d <= 9.
Proof.
  intros Hv. unfold get_first_digit.
  destruct (v <=? 0) eqn:Hle; [apply Z.leb_le in Hle; lia |].
  rewrite Z.abs_eq by lia.
  destruct (str_amount_shape v ltac:(lia)) as (frac & -> & Hf & Hne).
  assert (Hw : 1 <= v / 100) by (apply Z.div_le_lower_bound; lia).
  destruct (str_int_head (v / 100) Hw) as (c & t & Hs & Hd & Hrange).
  rewrite Hs. unfold cleaned. simpl.
  assert (Hz : Ascii.eqb c zero_char = false).
  { destruct (Ascii.eqb c zero_char) eqn:E; [| reflexivity].
    apply Ascii.eqb_eq in E. subst c. destruct Hrange as [H _].
    exfalso. apply H. reflexivity. }
  assert (Hdot : Ascii.eqb c dot_char = false).
  { destruct (Ascii.eqb c dot_char) eqn:E; [| reflexivity].
    apply Ascii.eqb_eq in E. subst c. discriminate. }
  assert (Hm : Ascii.eqb c minus_char = false).
  { destruct (Ascii.eqb c minus_char) eqn:E; [| reflexivity].
    apply Ascii.eqb_eq in E. subst c. discriminate. }
  rewrite Hz. unfold remove_char. simpl. rewrite Hdot. simpl. rewrite Hm. simpl.
  rewrite (int_of_char_digit c Hd). simpl.
  exists (digit_value c). split; [reflexivity | exact Hrange].
Qed.

Lemma get_first_digit_excluded v :
  v <= 0 -> get_first_digit (Some v) = Ok None /\ get_first_digit None = Ok None.
Proof.
  intros Hv. split; [| reflexivity].
  unfold get_first_digit. apply Z.leb_le in Hv. now rewrite Hv.
Qed.

End BenfordFacts.

(** ** The two passes of [generate_deputies] *)

Section PipelineFacts.
Import Py Benford Deputies.

Variable sqrt : Q -> Q.

Lemma insert_by_In {A} (before : A -> A -> bool) x y (l : list A) :
  In x (insert_by before y l) <-> x = y \/ In x l.
Proof.
  induction l as [| z t IH]; simpl; [intuition congruence |].
  destruct (before y z); simpl; [intuition congruence |].
  rewrite IH. intuition congruence.
Qed.

Lemma sort_by_In {A} (before : A -> A -> bool) x (l : list A) :
  In x (sort_by before l) <-> In x l.
Proof.
  unfold sort_by.
  assert (H : forall acc, In x (fold_left (fun a y => insert_by before y a) l acc)
                          <-> In x l \/ In x acc).
  { induction l as [| y t IH]; intros acc; simpl; [tauto |].
    rewrite IH, insert_by_In. intuition congruence. }
  rewrite H. simpl. tauto.
Qed.

Lemma insert_by_sorted {A} (key : A -> Z) x (l : list A) :
  StronglySorted (fun a b => key b <= key a) l ->
  StronglySorted (fun a b => key b <= key a)
    (insert_by (fun a b => key b <? key a) x l).
Proof.
  induction 1 as [| y t Ht IH Hy]; simpl.
  - constructor; constructor.
  - destruct (key y <? key x) eqn:E.
    + apply Z.ltb_lt in E. constructor; [constructor; assumption |].
      constructor; [lia |].
      rewrite Forall_forall in *. intros z Hz. specialize (Hy z Hz). lia.
    + apply Z.ltb_ge in E. constructor; [exact IH |].
      rewrite Forall_forall in *. intros z Hz.
      apply insert_by_In in Hz as [-> | Hz]; [exact E | exact (Hy z Hz)].
Qed.

Lemma sort_by_sorted {A} (key : A -> Z) (l : list A) :
  StronglySorted (fun a b => key b <= key a)
    (sort_by (fun a b => key b <? key a) l).
Proof.
  unfold sort_by.
  assert (H : forall acc,
             StronglySorted (fun a b => key b <= key a) acc ->
             StronglySorted (fun a b => key b <= key a)
               (fold_left (fun a y => insert_by (fun a b => key b <? key a) y a) l acc)).
  { induction l as [| y t IH]; intros acc Hacc; simpl; [exact Hacc |].
    apply IH. now apply insert_by_sorted. }
  apply H. constructor.
Qed.

(** The first of the top suppliers is the supplier with the largest
    total. *)
Lemma top_supplier_is_largest group total s rest :
  top_suppliers_of group total = s :: rest ->
  forall k v, In (k, v) (supplier_totals group) -> (reais v <= s_value s)%Q.
Proof.
  unfold top_suppliers_of. intros Htop k v Hin.
  pose proof (sort_by_sorted (@snd string Z) (supplier_totals group)) as Hsorted.
  apply (sort_by_In (fun x y : string * Z => snd y <? snd x)) in Hin.
  destruct (sort_by (fun x y : string * Z => snd y <? snd x) (supplier_totals group))
    as [| [k0 v0] t]; [discriminate |].
  simpl in Htop. injection Htop as <- _. simpl.
  assert (Hle : v <= v0).
  { inversion Hsorted as [| ? ? _ Hall]; subst.
    destruct Hin as [[= -> ->] | Hin]; [lia |].
    rewrite Forall_forall in Hall. exact (Hall (k, v) Hin). }
  unfold reais, Qle. simpl. lia.
Qed.

Lemma first_pass_ok hhi_df idx who group :
  exists d, first_pass hhi_df idx who group = Ok d /\ first_pass_shape d.
Proof.
  unfold first_pass.
  destruct (hhi_of hhi_df who) as [h l].
  destruct (base_risk h) as [lvl base] eqn:Eb.
  destruct (calculate_benford_analysis_total (map value group)) as [r ->].
  simpl. eexists. split; [reflexivity |].
  unfold first_pass_shape. simpl. rewrite Eb. split; reflexivity.
Qed.

Lemma first_pass_all_ok hhi_df groups :
  forall idx, exists ds,
    first_pass_all hhi_df idx groups = Ok ds /\ Forall first_pass_shape ds.
Proof.
  induction groups as [| [who group] t IH]; intros idx; simpl.
  - exists []. split; [reflexivity | constructor].
  - destruct (first_pass_ok hhi_df idx who group) as (d & -> & Hd).
    destruct (IH (S idx)) as (ds & -> & Hds).
    simpl. exists (d :: ds). split; [reflexivity | now constructor].
Qed.

Lemma generate_deputies_ok expenses_df hhi_df :
  expenses_df <> [] ->
  generate_deputies sqrt expenses_df hhi_df
    = Ok (finish sqrt (first_pass_deputies expenses_df hhi_df))
  /\ Forall first_pass_shape (first_pass_deputies expenses_df hhi_df).
Proof.
  intros Hne. unfold generate_deputies, first_pass_deputies.
  destruct expenses_df as [| r rows]; [contradiction |].
  destruct (first_pass_all_ok hhi_df (groupby (r :: rows)) 0) as (ds & -> & Hds).
  simpl. split; [reflexivity | exact Hds].
Qed.

Lemma finish_In deputies d :
  In d (finish sqrt deputies) <->
  exists d0, In d0 deputies /\ active d0 = true
             /\ d = second_pass (stats_by sqrt party (filter active deputies))
                      (stats_by sqrt uf (filter active deputies)) d0.
Proof.
  unfold finish. rewrite sort_by_In, in_map_iff. split.
  - intros (d0 & <- & Hin). apply filter_In in Hin as [Hin Hact]. eauto.
  - intros (d0 & Hin & Hact & ->). exists d0. split; [reflexivity |].
    apply filter_In. auto.
Qed.

(** The score and the tier of every record of the output, in terms of the
    record's own fields and of the peer statistics. *)
Lemma output_record expenses_df hhi_df d :
  expenses_df <> [] ->
  In d (finish sqrt (first_pass_deputies expenses_df hhi_df)) ->
  let peers := active_deputies expenses_df hhi_df in
  let z_party := z_score (stats_by sqrt party peers) (party d) (totalSpending d) in
  let z_state := z_score (stats_by sqrt uf peers) (uf d) (totalSpending d) in
  zScoreParty d = Some (xround2 z_party)
  /\ zScoreState d = Some (xround2 z_state)
  /\ riskScore d
     = risk_score_of (snd (base_risk (hhi_value d))) (Qgtb (roundValuePct d) 20)
         (significant (benford d)) (top_share_above_50 (topSuppliers d))
         (xgt z_party 2) (xgt z_state 2)
  /\ riskLevel d = final_level (riskScore d).
Proof.
  intros Hne Hin.
  destruct (generate_deputies_ok expenses_df hhi_df Hne) as [_ Hshape].
  apply finish_In in Hin as (d0 & Hin0 & _ & ->).
  rewrite Forall_forall in Hshape. destruct (Hshape d0 Hin0) as [Hscore _].
  unfold active_deputies. cbn -[z_score stats_by xgt xround2 risk_score_of final_level].
  rewrite Hscore. repeat split; reflexivity.
Qed.

Ltac all_scores hhi :=
  unfold base_risk;
  destruct (fgt hhi 3000); [| destruct (fgt hhi 2500); [| destruct (fgt hhi 1500)]];
  cbn [snd].

Lemma risk_score_of_composite hhi a b c d e :
  risk_score_of (snd (base_risk hhi)) a b c d e
  = composite_spec (snd (base_risk hhi)) a b c d e.
Proof.
  all_scores hhi; destruct a, b, c, d, e; vm_compute; reflexivity.
Qed.

Lemma risk_score_of_bounds hhi a b c d e :
  PrimFloat.leb 0 (risk_score_of (snd (base_risk hhi)) a b c d e) = true
  /\ PrimFloat.leb (risk_score_of (snd (base_risk hhi)) a b c d e) 1 = true.
Proof.
  all_scores hhi; destruct a, b, c, d, e; vm_compute; split; reflexivity.
Qed.

Lemma risk_score_of_tier hhi a b c d e :
  in_tier_range (final_level (risk_score_of (snd (base_risk hhi)) a b c d e))
    (risk_score_of (snd (base_risk hhi)) a b c d e) = true.
Proof.
  all_scores hhi; destruct a, b, c, d, e; vm_compute; reflexivity.
Qed.

Lemma risk_score_of_monotone hhi a b c d e :
  let score := risk_score_of (snd (base_risk hhi)) in
  PrimFloat.leb (score false b c d e) (score true b c d e) = true
  /\ PrimFloat.leb (score a false c d e) (score a true c d e) = true
  /\ PrimFloat.leb (score a b false d e) (score a b true d e) = true
  /\ PrimFloat.leb (score a b c false e) (score a b c true e) = true
  /\ PrimFloat.leb (score a b c d false) (score a b c d true) = true.
Proof.
  all_scores hhi; destruct a, b, c, d, e; vm_compute; repeat split; reflexivity.
Qed.

(** C1.  For a non-empty expense table the script returns its records, and
    the risk score of each record equals the clamp-at-end composition of the
    specification: the base score of the record's HHI value, +0.10 when the
    round-value percentage exceeds 20, +0.15 when the Benford test is
    significant, +0.10 when the largest supplier's share exceeds 50, +0.08
    for each z-score (party, state; as computed, before it is rounded for
    reporting) above 2.0, capped at 1.0 and rounded to two decimals. *)
Theorem composite_score_clamps_at_end expenses_df hhi_df :
  expenses_df <> [] ->
  exists out,
    generate_deputies sqrt expenses_df hhi_df = Ok out
    /\ forall d, In d out ->
       let peers := active_deputies expenses_df hhi_df in
       let z_party := z_score (stats_by sqrt party peers) (party d) (totalSpending d) in
       let z_state := z_score (stats_by sqrt uf peers) (uf d) (totalSpending d) in
       zScoreParty d = Some (xround2 z_party)
       /\ zScoreState d = Some (xround2 z_state)
       /\ riskScore d
          = composite_spec (snd (base_risk (hhi_value d))) (Qgtb (roundValuePct d) 20)
              (significant (benford d)) (top_share_above_50 (topSuppliers d))
              (xgt z_party 2) (xgt z_state 2).
Proof.
  intros Hne.
  destruct (generate_deputies_ok expenses_df hhi_df Hne) as [Hgen _].
  eexists. split; [exact Hgen |]. intros d Hin. cbv zeta.
  destruct (output_record expenses_df hhi_df d Hne Hin) as (Hp & Hs & Hscore & _).
  rewrite <- risk_score_of_composite. auto.
Qed.

(** C8.  For a non-empty expense table, the tier of each record of the
    output is the image of its final score under the four cut points (0.75
    CRITICO, 0.55 ALTO, 0.35 MEDIO, else BAIXO), and the score lies in the
    range of that tier; the concentration tier of the first pass plays no
    part. *)
Theorem final_tier_follows_score expenses_df hhi_df :
  expenses_df <> [] ->
  exists out,
    generate_deputies sqrt expenses_df hhi_df = Ok out
    /\ forall d, In d out ->
       riskLevel d = final_level (riskScore d)
       /\ in_tier_range (riskLevel d) (riskScore d) = true.
Proof.
  intros Hne.
  destruct (generate_deputies_ok expenses_df hhi_df Hne) as [Hgen _].
  eexists. split; [exact Hgen |]. intros d Hin.
  destruct (output_record expenses_df hhi_df d Hne Hin) as (_ & _ & Hscore & Hlevel).
  split; [exact Hlevel |].
  rewrite Hlevel, Hscore. apply risk_score_of_tier.
Qed.

(** C9.  For a non-empty expense table, the final score of each record of
    the output lies between 0 and 1 and is the value of [risk_score_of] at
    the record's base score and triggers; and [risk_score_of] does not
    decrease when any one of the five triggers goes from false to true, the
    base score and the other triggers being fixed. *)
Theorem score_bounded_and_monotone expenses_df hhi_df :
  expenses_df <> [] ->
  (exists out,
      generate_deputies sqrt expenses_df hhi_df = Ok out
      /\ forall d, In d out ->
         let peers := active_deputies expenses_df hhi_df in
         let z_party :=
           z_score (stats_by sqrt party peers) (party d) (totalSpending d) in
         let z_state :=
           z_score (stats_by sqrt uf peers) (uf d) (totalSpending d) in
         PrimFloat.leb 0 (riskScore d) = true
         /\ PrimFloat.leb (riskScore d) 1 = true
         /\ riskScore d
            = risk_score_of (snd (base_risk (hhi_value d)))
                (Qgtb (roundValuePct d) 20) (significant (benford d))
                (top_share_above_50 (topSuppliers d)) (xgt z_party 2) (xgt z_state 2))
  /\ forall hhi a b c d e,
       let score := risk_score_of (snd (base_risk hhi)) in
       PrimFloat.leb (score false b c d e) (score true b c d e) = true
       /\ PrimFloat.leb (score a false c d e) (score a true c d e) = true
       /\ PrimFloat.leb (score a b false d e) (score a b true d e) = true
       /\ PrimFloat.leb (score a b c false e) (score a b c true e) = true
       /\ PrimFloat.leb (score a b c d false) (score a b c d true) = true.
Proof.
  intros Hne. split; [| apply risk_score_of_monotone].
  destruct (generate_deputies_ok expenses_df hhi_df Hne) as [Hgen _].
  eexists. split; [exact Hgen |]. intros d Hin. cbv zeta.
  destruct (output_record expenses_df hhi_df d Hne Hin) as (_ & _ & Hscore & _).
  rewrite Hscore at 1 2.
  destruct (risk_score_of_bounds (hhi_value d) (Qgtb (roundValuePct d) 20)
              (significant (benford d)) (top_share_above_50 (topSuppliers d))
              (xgt (z_score (stats_by sqrt party (active_deputies expenses_df hhi_df))
                      (party d) (totalSpending d)) 2)
              (xgt (z_score (stats_by sqrt uf (active_deputies expenses_df hhi_df))
                      (uf d) (totalSpending d)) 2)) as [H0 H1].
  auto.
Qed.

(** *** Activity filter *)

Lemma lookup_dict_append k k' v (m : list (string * list Q)) :
  lookup k (dict_append k' v m)
  = if String.eqb k' k
    then Some (match lookup k m with Some vs => vs ++ [v] | None => [v] end)
    else lookup k m.
Proof.
  induction m as [| [k0 vs0] t IH]; simpl.
  - destruct (String.eqb k' k); reflexivity.
  - destruct (String.eqb k0 k') eqn:E0; simpl.
    + apply String.eqb_eq in E0. subst k0.
      destruct (String.eqb k' k); reflexivity.
    + rewrite IH. destruct (String.eqb k0 k) eqn:E1; [| reflexivity].
      apply String.eqb_eq in E1. subst k0.
      rewrite String.eqb_sym, E0. reflexivity.
Qed.

Lemma lookup_spending_fold key k deputies :
  forall m,
    lookup k (fold_left (fun m d => dict_append (key d) (totalSpending d) m) deputies m)
    = match lookup k m with
      | Some vs => Some (vs ++ values_of key k deputies)
      | None => match values_of key k deputies with
                | [] => None
                | l => Some l
                end
      end.
Proof.
  unfold values_of.
  induction deputies as [| d t IH]; intros m; simpl.
  - destruct (lookup k m); [rewrite List.app_nil_r |]; reflexivity.
  - rewrite IH, lookup_dict_append.
    destruct (String.eqb (key d) k); simpl; [| reflexivity].
    destruct (lookup k m); [rewrite <- List.app_assoc |]; reflexivity.
Qed.

Lemma lookup_spending_by key k deputies :
  lookup k (spending_by key deputies)
  = match values_of key k deputies with
    | [] => None
    | l => Some l
    end.
Proof. unfold spending_by. rewrite lookup_spending_fold. reflexivity. Qed.


Lemma active_spec d :
  active d = true <-> (50000 <= totalSpending d)%Q /\ 20 <= transactionCount d.
Proof.
  unfold active, meets_floors, Qgeb, MIN_SPENDING, MIN_TRANSACTIONS.
  rewrite andb_true_iff, Qle_bool_iff, Z.leb_le. reflexivity.
Qed.

Lemma filter_active_idem deputies :
  filter active (filter active deputies) = filter active deputies.
Proof.
  induction deputies as [| d t IH]; simpl; [reflexivity |].
  destruct (active d) eqn:E; simpl; [rewrite E, IH |]; auto.
Qed.

(** C7.  A deputy passes the activity filter exactly when the total spend
    is at least 50,000 and the transaction count at least 20 (49,999 with 25
    transactions and 50,000 with 19 are out, 50,000 with 20 is in).  The
    output holds exactly the second-pass records of the deputies that pass,
    computed against the statistics of those deputies alone: everything after
    the first loop is unchanged when the deputies that fail are removed
    beforehand, and each spending that enters a peer group is that of a
    deputy that passes. *)
Theorem activity_filter_is_inclusive :
  (forall d, active d = true
             <-> (50000 <= totalSpending d)%Q /\ 20 <= transactionCount d)
  /\ meets_floors 49999 25 = false
  /\ meets_floors 50000 19 = false
  /\ meets_floors 50000 20 = true
  /\ (forall deputies d,
        In d (finish sqrt deputies) <->
        exists d0, In d0 deputies /\ active d0 = true
                   /\ d = second_pass (stats_by sqrt party (filter active deputies))
                            (stats_by sqrt uf (filter active deputies)) d0)
  /\ (forall deputies, finish sqrt deputies = finish sqrt (filter active deputies))
  /\ (forall key deputies k vs v,
        lookup k (spending_by key (filter active deputies)) = Some vs ->
        In v vs ->
        exists d, In d deputies /\ active d = true /\ key d = k
                  /\ totalSpending d = v).
Proof.
  split; [exact active_spec |].
  repeat (split; [reflexivity |]).
  split; [exact finish_In |].
  split.
  - intros deputies. unfold finish. now rewrite filter_active_idem.
  - intros key deputies k vs v Hl Hv.
    rewrite lookup_spending_by in Hl.
    assert (Hvs : vs = values_of key k (filter active deputies)).
    { destruct (values_of key k (filter active deputies)); congruence. }
    subst vs. unfold values_of in Hv.
    apply in_map_iff in Hv as (d & Hd & Hin).
    apply filter_In in Hin as [Hin Hk]. apply filter_In in Hin as [Hin Hact].
    apply String.eqb_eq in Hk. eauto.
Qed.

(** *** Peer statistics *)


Lemma Qsum_nonneg l : Forall (fun x => 0 <= x)%Q l -> (0 <= Qsum l)%Q.
Proof.
  induction 1 as [| x t Hx _ IH]; simpl; [apply Qle_refl |].
  apply Qle_trans with (0 + 0)%Q; [discriminate | now apply Qplus_le_compat].
Qed.

End PipelineFacts.

(** ** The peer statistics as numpy computes them *)

Section PeerStatisticsFacts.
Import Py PeerStatistics Samples.

Lemma lookup_group_stats k m :
  Deputies.lookup k (map (fun '(k, values) => (k, group_stats values)) m)
  = option_map group_stats (Deputies.lookup k m).
Proof.
  induction m as [| [k' vs] t IH]; simpl; [reflexivity |].
  destruct (String.eqb k' k); [reflexivity | exact IH].
Qed.

Lemma group_stats_divisor values : fgt (std (group_stats values)) 0 = true.
Proof.
  unfold group_stats.
  destruct (2 <=? List.length values)%nat; simpl; [| reflexivity].
  destruct (fgt (np_std values) 0) eqn:E; [exact E | reflexivity].
Qed.

(** C6.  In binary64 the divisor of a z-score is always above zero, and a
    peer group of one deputy has that deputy's spend as mean and 1 as
    standard deviation, so a deputy alone in her group has z-score 0.0.  But
    a group whose members share one spend is not given standard deviation 1:
    for three deputies at 50000.30 each, [np.mean] returns
    50000.30000000001 and [np.std] 7.3e-12, which is above zero; nothing is
    substituted, and every one of them has z-score -1.0 for party and for
    state, not 0.0.  The same holds of six deputies at 52007.40000000001.
    Two deputies at one spend do get standard deviation 1 and z-score 0.0. *)
Theorem identical_spends_are_not_degenerate :
  (forall key deputies k st,
      Deputies.lookup k (stats_by key deputies) = Some st -> fgt (std st) 0 = true)
  /\ (forall key deputies k v,
        Deputies.lookup k (spending_by key deputies) = Some [v] ->
        Deputies.lookup k (stats_by key deputies)
        = Some {| mean := v; std := 1 |})
  /\ (np_mean [50000.3; 50000.3; 50000.3] = 50000.30000000001
      /\ PrimFloat.eqb (np_mean [50000.3; 50000.3; 50000.3]) 50000.3 = false
      /\ fgt (np_std [50000.3; 50000.3; 50000.3]) 0 = true
      /\ PrimFloat.ltb (np_std [50000.3; 50000.3; 50000.3]) 1e-11 = true
      /\ stats_by peer_party (same_spending 3 50000.3 ++ [alone])
         = [("PX", {| mean := 50000.30000000001;
                      std := np_std [50000.3; 50000.3; 50000.3] |});
            ("PY", {| mean := 90000.5; std := 1 |})]
      /\ z_scores (same_spending 3 50000.3 ++ [alone])
         = [(-1, -1); (-1, -1); (-1, -1); (0, 0)])%float
  /\ z_scores (same_spending 6 52007.40000000001) = repeat (-1, -1)%float 6
  /\ (stats_by peer_party (same_spending 2 50000.3)
      = [("PX", {| mean := 50000.3; std := 1 |})]
      /\ z_scores (same_spending 2 50000.3) = [(0, 0); (0, 0)])%float.
Proof.
  split; [| split; [| split; [| split]]].
  - intros key deputies k st. unfold stats_by. rewrite lookup_group_stats.
    destruct (Deputies.lookup k (spending_by key deputies)) as [values |]; simpl;
      [| discriminate].
    intros [= <-]. apply group_stats_divisor.
  - intros key deputies k v H. unfold stats_by.
    rewrite lookup_group_stats, H. reflexivity.
  - repeat split; vm_compute; reflexivity.
  - vm_compute. reflexivity.
  - split; vm_compute; reflexivity.
Qed.

End PeerStatisticsFacts.

(** ** The script on concrete tables *)

Section Runs.
Import Py Benford Deputies Fixtures.

Lemma party_table_nonempty : party_table <> [].
Proof. discriminate. Qed.

(** C2, on the script: without a row in the HHI table the index is 1500 and
    its label MEDIO, but the base score is 0.2 and the tier BAIXO, since
    1500 is not above the cut point 1500; NEI, with no trigger at all, ends
    with score 0.2 and tier BAIXO. *)
Theorem missing_index_scores_low :
  (forall who, hhi_of [] who = (1500%float, "MEDIO"))
  /\ fgt 1500 1500 = false
  /\ base_risk 1500 = (BAIXO, 0.2%float)
  /\ exists d,
       generate_deputies Qsqrt_floor nei_rows [] = Ok [d]
       /\ hhi_value d = 1500%float
       /\ hhi_level d = "MEDIO"
       /\ redFlags d = []
       /\ riskScore d = 0.2%float
       /\ riskLevel d = BAIXO.
Proof.
  split; [reflexivity |]. split; [reflexivity |]. split; [reflexivity |].
  eexists. split; [vm_compute; reflexivity |].
  repeat split; reflexivity.
Qed.

(** The end-to-end scenario of the specification: index 3500, a quarter of
    the amounts round, Benford deviation, a supplier with 60% of the spend
    and a party z-score of 2.45 give score 1.0, tier CRITICO and five
    evidence entries in the fixed order. *)
Example end_to_end_scenario :
  exists ana rest share z,
    generate_deputies Qsqrt_floor party_table hhi_table = Ok (ana :: rest)
    /\ name ana = "ANA"
    /\ riskScore ana = 1.0%float
    /\ riskLevel ana = CRITICO
    /\ zScoreParty ana = Some (Fin 2.45)
    /\ redFlags ana
       = [HighConcentration 3500; TopSupplierShare share; RoundValues (1500 # 60);
          BenfordDeviation 1244.35; AbovePartyAverage z].
Proof.
  do 4 eexists. split; [vm_compute; reflexivity |].
  repeat split; reflexivity.
Qed.

(** Negative round amounts reach the score: seven refunds of -100.00 among
    the 31 transactions of LIA put the round-value share above 20%, which
    adds the evidence entry and the penalty.  Her final tier, MEDIO, is that
    of the score 0.4 and not the concentration tier of the first pass. *)
Example refunds_of_lia_are_penalised :
  exists lia share,
    generate_deputies Qsqrt_floor lia_rows [] = Ok [lia]
    /\ roundValuePct lia = 700 # 31
    /\ redFlags lia = [TopSupplierShare share; RoundValues (700 # 31)]
    /\ riskScore lia = 0.4%float
    /\ riskLevel lia = MEDIO
    /\ fst (base_risk (hhi_value lia)) = BAIXO.
Proof.
  do 2 eexists. split; [vm_compute; reflexivity |].
  repeat split; reflexivity.
Qed.

Lemma composite_score_clamps_at_end_witness :
  party_table <> []
  /\ exists out,
       generate_deputies Qsqrt_floor party_table hhi_table = Ok out
       /\ forall d, In d out ->
          let peers := active_deputies party_table hhi_table in
          let z_party :=
            z_score (stats_by Qsqrt_floor party peers) (party d) (totalSpending d) in
          let z_state :=
            z_score (stats_by Qsqrt_floor uf peers) (uf d) (totalSpending d) in
          zScoreParty d = Some (xround2 z_party)
          /\ zScoreState d = Some (xround2 z_state)
          /\ riskScore d
             = composite_spec (snd (base_risk (hhi_value d)))
                 (Qgtb (roundValuePct d) 20) (significant (benford d))
                 (top_share_above_50 (topSuppliers d))
                 (xgt z_party 2) (xgt z_state 2).
Proof.
  split; [exact party_table_nonempty |].
  exact (composite_score_clamps_at_end Qsqrt_floor party_table hhi_table
           party_table_nonempty).
Defined.

Lemma final_tier_follows_score_witness :
  party_table <> []
  /\ exists out,
       generate_deputies Qsqrt_floor party_table hhi_table = Ok out
       /\ forall d, In d out ->
          riskLevel d = final_level (riskScore d)
          /\ in_tier_range (riskLevel d) (riskScore d) = true.
Proof.
  split; [exact party_table_nonempty |].
  exact (final_tier_follows_score Qsqrt_floor party_table hhi_table
           party_table_nonempty).
Defined.

Lemma score_bounded_and_monotone_witness :
  party_table <> []
  /\ exists out,
       generate_deputies Qsqrt_floor party_table hhi_table = Ok out
       /\ forall d, In d out ->
          PrimFloat.leb 0 (riskScore d) = true
          /\ PrimFloat.leb (riskScore d) 1 = true.
Proof.
  split; [exact party_table_nonempty |].
  destruct (score_bounded_and_monotone Qsqrt_floor party_table hhi_table
              party_table_nonempty) as [(out & Hout & Hall) _].
  exists out. split; [exact Hout |].
  intros d Hd. destruct (Hall d Hd) as (H0 & H1 & _). split; assumption.
Defined.

End Runs.

(** * Further properties of the script *)

Section DigitFacts.
Import Py Benford.

Lemma of_uint_acc_bounds l :
  forall acc,
    Zpos acc * 10 ^ Z.of_nat (Decimal.nb_digits l)
    <= Zpos (Pos.of_uint_acc l acc)
    < (Zpos acc + 1) * 10 ^ Z.of_nat (Decimal.nb_digits l).
Proof.
  induction l; intros acc; cbn [Pos.of_uint_acc Decimal.nb_digits];
    try (rewrite Nat2Z.inj_succ, Z.pow_succ_r by apply Nat2Z.is_nonneg;
         match goal with
         | |- context [Pos.of_uint_acc l ?a] => specialize (IHl a)
         end;
         assert (0 < 10 ^ Z.of_nat (Decimal.nb_digits l))
           by (apply Z.pow_pos_nonneg; lia);
         rewrite ?Pos2Z.inj_add, ?Pos2Z.inj_mul in IHl; nia).
  simpl. lia.
Qed.

Lemma digit_value_range c : is_digit c = true -> 0 <= digit_value c <= 9.
Proof.
  unfold is_digit, digit_value. rewrite andb_true_iff, !Nat.leb_le. lia.
Qed.

(** The first character of the numeral of [m >= 1] is its leading decimal
    digit. *)
Lemma str_int_leading m :
  1 <= m ->
  exists c t n,
    str_int m = c :: t /\ is_digit c = true /\ 1 <= digit_value c <= 9
    /\ 0 <= n /\ digit_value c * 10 ^ n <= m < (digit_value c + 1) * 10 ^ n.
Proof.
  intros Hm. unfold str_int, NilZero.string_of_uint.
  destruct (Z.to_N m) as [| p] eqn:E; [lia |].
  assert (Hp : m = Zpos p) by lia. subst m. simpl N.to_uint.
  pose proof (to_uint_head p) as Hhead.
  pose proof (DecimalPos.Unsigned.to_uint_nonnil p) as Hnil.
  pose proof (DecimalPos.Unsigned.of_to p) as Hof.
  destruct (Pos.to_uint p) as [| u | u | u | u | u | u | u | u | u | u];
    [ contradiction | exfalso; apply (Hhead u); reflexivity | .. ];
    simpl in Hof; injection Hof as Hof;
    match type of Hof with
    | Pos.of_uint_acc _ ?k = _ => pose proof (of_uint_acc_bounds u k) as Hb
    end;
    rewrite Hof in Hb; simpl;
    eexists; eexists; exists (Z.of_nat (Decimal.nb_digits u));
    (split; [reflexivity |]); (split; [reflexivity |]);
    (split; [vm_compute; split; discriminate |]);
    (split; [apply Nat2Z.is_nonneg |]);
    match goal with
    | |- context [digit_value ?c] =>
        let k := eval vm_compute in (digit_value c) in
        change (digit_value c) with k
    end; lia.
Qed.

End DigitFacts.

Section DigitExtras.
Import Py RoundNumber Benford.

Lemma head_survives_cleaning c t :
  is_digit c = true -> Ascii.eqb c zero_char = false ->
  exists t', cleaned (c :: t) = c :: t'.
Proof.
  intros Hd Hz. unfold cleaned. simpl. rewrite Hz.
  assert (Hdot : Ascii.eqb c dot_char = false).
  { destruct (Ascii.eqb c dot_char) eqn:E; [| reflexivity].
    apply Ascii.eqb_eq in E. subst c. discriminate. }
  assert (Hm : Ascii.eqb c minus_char = false).
  { destruct (Ascii.eqb c minus_char) eqn:E; [| reflexivity].
    apply Ascii.eqb_eq in E. subst c. discriminate. }
  unfold remove_char. simpl. rewrite Hdot. simpl. rewrite Hm. simpl.
  eexists. reflexivity.
Qed.

(** X1.  For an amount of 1.00 or more, [get_first_digit] returns the
    leading decimal digit of the whole part: a digit [d] between 1 and 9
    with [d * 10^n <= whole part < (d + 1) * 10^n] for some [n]. *)
Theorem first_digit_is_leading_digit (v : Z) :
  100 <= v ->
  exists d n,
    get_first_digit (Some v) = Ok (Some d)
    /\ 1 <= d <= 9 /\ 0 <= n
    /\ d * 10 ^ n <= v / 100 < (d + 1) * 10 ^ n.
Proof.
  intros Hv. unfold get_first_digit.
  destruct (v <=? 0) eqn:Hle; [apply Z.leb_le in Hle; lia |].
  rewrite Z.abs_eq by lia.
  destruct (str_amount_shape v ltac:(lia)) as (frac & -> & _ & _).
  assert (Hw : 1 <= v / 100) by (apply Z.div_le_lower_bound; lia).
  destruct (str_int_leading (v / 100) Hw) as (c & t & n & Hs & Hd & Hrange & Hn & Hlead).
  rewrite Hs. cbn [app].
  assert (Hz : Ascii.eqb c zero_char = false).
  { destruct (Ascii.eqb c zero_char) eqn:E; [| reflexivity].
    apply Ascii.eqb_eq in E. subst c. destruct Hrange as [H _].
    exfalso. apply H. reflexivity. }
  destruct (head_survives_cleaning c (t ++ dot_char :: frac) Hd Hz) as [t' ->].
  rewrite (int_of_char_digit c Hd). simpl.
  exists (digit_value c), n. auto.
Qed.

Lemma first_digit_is_leading_digit_witness :
  100 <= 123456
  /\ exists d n,
       get_first_digit (Some 123456) = Ok (Some d)
       /\ 1 <= d <= 9 /\ 0 <= n
       /\ d * 10 ^ n <= 123456 / 100 < (d + 1) * 10 ^ n.
Proof.
  split; [lia |]. apply (first_digit_is_leading_digit 123456). lia.
Defined.

(** X2.  [get_first_digit] never raises on an amount of the table: the
    character handed to [int] is always a decimal digit.  It returns no
    digit exactly when the amount is missing or not positive, and a digit
    between 0 and 9 otherwise. *)
Theorem first_digit_never_raises (value : option Z) :
  exists r,
    get_first_digit value = Ok r
    /\ (r = None <-> valid_amount value = false)
    /\ forall d, r = Some d -> 0 <= d <= 9.
Proof.
  destruct value as [v |]; simpl;
    [| exists None; repeat split; congruence].
  destruct (v <=? 0) eqn:Hle.
  - exists None. apply Z.leb_le in Hle.
    assert (Hv : (0 <? v) = false) by (apply Z.ltb_ge; lia).
    repeat split; congruence.
  - apply Z.leb_gt in Hle.
    destruct (str_amount_shape (Z.abs v) ltac:(lia)) as (frac & -> & Hf & Hne).
    destruct (cleaned_head (str_int (Z.abs v / 100)) frac
                (str_int_digits (Z.abs v / 100)) Hf Hne) as (c & t & Hc & Hd).
    rewrite Hc, (int_of_char_digit c Hd). simpl.
    assert (Hv : (0 <? v) = true) by (apply Z.ltb_lt; lia).
    eexists. split; [reflexivity |]. split.
    + split; [discriminate | congruence].
    + intros d [= <-]. now apply digit_value_range.
Qed.

(** X3.  An amount is round exactly when it is a whole multiple of 100.00,
    zero and the negative multiples included; the test [value % 1 == 0]
    adds nothing to [value % 100 == 0]; a missing amount is not round. *)
Theorem round_iff_multiple_of_hundred :
  (forall v, is_round_value (Some v) = true <-> exists k, v = k * 10000)
  /\ (forall v, is_round_value (Some v) = (pymod v 100 =? 0))
  /\ is_round_value None = false.
Proof.
  split; [exact is_round_value_spec |]. split; [| reflexivity].
  intros v. unfold is_round_value.
  destruct (pymod v 100 =? 0) eqn:E; [| apply andb_false_r].
  rewrite andb_true_r. apply Z.eqb_eq in E. apply Z.eqb_eq.
  unfold pymod in *. change (100 * 100) with 10000 in E. change (1 * 100) with 100.
  pose proof (Z.div_mod v 10000 ltac:(lia)) as Hdm.
  rewrite E in Hdm. rewrite Hdm.
  replace (10000 * (v / 10000) + 0) with (100 * (v / 10000) * 100) by lia.
  apply Z.mod_mul. lia.
Qed.

Lemma round_count_bounds values :
  0 <= round_count values <= Z.of_nat (List.length values).
Proof.
  unfold round_count. split; [apply Nat2Z.is_nonneg |].
  apply inj_le. apply filter_length_le.
Qed.

(** X4.  The round-value percentage of a group lies between 0 and 100, and
    it is 0 for a group without transactions, where nothing is divided. *)
Theorem round_value_pct_bounds (values : list (option Z)) :
  (0 <= round_value_pct values <= 100)%Q /\ round_value_pct [] = 0%Q.
Proof.
  split; [| reflexivity].
  unfold round_value_pct.
  destruct (0 <? Z.of_nat (List.length values)) eqn:Hn; [| split; discriminate].
  apply Z.ltb_lt in Hn. pose proof (round_count_bounds values) as [H0 H1].
  assert (Hc : (0 <= inject_Z (round_count values))%Q)
    by (change 0%Q with (inject_Z 0); now rewrite <- Zle_Qle).
  assert (Hl : (0 < inject_Z (Z.of_nat (List.length values)))%Q)
    by (change 0%Q with (inject_Z 0); now rewrite <- Zlt_Qlt).
  assert (Hcl : (inject_Z (round_count values)
                 <= inject_Z (Z.of_nat (List.length values)))%Q)
    by now rewrite <- Zle_Qle.
  set (x := (inject_Z (round_count values)
             / inject_Z (Z.of_nat (List.length values)))%Q).
  assert (Hx0 : (0 <= x)%Q).
  { unfold x. apply Qle_shift_div_l; [exact Hl |]. now rewrite Qmult_0_l. }
  assert (Hx1 : (x <= 1)%Q).
  { unfold x. apply Qle_shift_div_r; [exact Hl |]. now rewrite Qmult_1_l. }
  split; lra.
Qed.

End DigitExtras.

Section BenfordExtras.
Import Py Benford.

Lemma round_half_even_bounds n d k :
  0 < d ->
  (k * d <= n -> k <= round_half_even n d)
  /\ (n <= k * d -> round_half_even n d <= k).
Proof.
  intros Hd. unfold round_half_even.
  pose proof (Z.div_mod n d ltac:(lia)) as Hdm.
  pose proof (Z.mod_pos_bound n d Hd) as Hr.
  assert (Hlow : k * d <= n -> k <= n / d) by (intros; apply Z.div_le_lower_bound; lia).
  assert (Hup : n <= k * d -> n / d < k \/ (n / d = k /\ n mod d = 0)) by nia.
  split; intros H.
  - specialize (Hlow H).
    destruct (2 * (n mod d) ?= d); [destruct (Z.even (n / d)) | |]; lia.
  - destruct (Hup H) as [Hlt | [Heq H0]].
    + destruct (2 * (n mod d) ?= d); [destruct (Z.even (n / d)) | |]; lia.
    + rewrite H0. change (2 * 0) with 0.
      assert (E : (0 ?= d) = Lt) by now apply Z.compare_lt_iff.
      rewrite E. lia.
Qed.

Lemma Qround2_bounds (q : Q) (k : Z) :
  ((inject_Z k <= q -> inject_Z k <= Qround2 q)
   /\ (q <= inject_Z k -> Qround2 q <= inject_Z k))%Q.
Proof.
  destruct q as [n d]. unfold Qround2, Qle, inject_Z. simpl.
  destruct (round_half_even_bounds (n * 100) (Zpos d) (k * 100) ltac:(lia))
    as [Hlow Hup].
  split; intros H; [specialize (Hlow ltac:(lia)) | specialize (Hup ltac:(lia))]; lia.
Qed.

Lemma digit_count_nonneg fd d : 0 <= digit_count fd d.
Proof. unfold digit_count. apply Nat2Z.is_nonneg. Qed.

(** One round of the loop: an entry is appended, with an observed
    percentage between 0 and 100, and the statistic does not become
    negative. *)
Lemma digit_step_spec first_digits total chi dist d :
  digit_count first_digits d <= total ->
  exists chi' entry,
    digit_step first_digits total (chi, dist) d = (chi', dist ++ [entry])
    /\ digit entry = d /\ expected entry = BENFORD_EXPECTED d
    /\ (0 <= observed entry <= 100)%Q
    /\ ((0 <= chi)%Q -> (0 <= chi')%Q).
Proof.
  intros Htotal. unfold digit_step. eexists. eexists.
  split; [reflexivity |]. cbn [digit expected observed].
  split; [reflexivity |]. split; [reflexivity |]. split.
  - assert (Hb : (0 <= (if 0 <? total
                        then inject_Z (digit_count first_digits d)
                             / inject_Z total * 100
                        else 0) <= 100)%Q).
    { destruct (0 <? total) eqn:Ht; [| split; discriminate].
      apply Z.ltb_lt in Ht.
      pose proof (digit_count_nonneg first_digits d) as H0.
      assert (Hc0 : (0 <= inject_Z (digit_count first_digits d))%Q)
        by (change 0%Q with (inject_Z 0); now rewrite <- Zle_Qle).
      assert (Hl : (0 < inject_Z total)%Q)
        by (change 0%Q with (inject_Z 0); now rewrite <- Zlt_Qlt).
      assert (Hcl : (inject_Z (digit_count first_digits d) <= inject_Z total)%Q)
        by now rewrite <- Zle_Qle.
      set (x := (inject_Z (digit_count first_digits d) / inject_Z total)%Q).
      assert (Hx0 : (0 <= x)%Q).
      { unfold x. apply Qle_shift_div_l; [exact Hl |]. now rewrite Qmult_0_l. }
      assert (Hx1 : (x <= 1)%Q).
      { unfold x. apply Qle_shift_div_r; [exact Hl |]. now rewrite Qmult_1_l. }
      split; lra. }
    destruct Hb as [Hb0 Hb1]. split.
    + apply (Qround2_bounds _ 0). exact Hb0.
    + apply (Qround2_bounds _ 100). exact Hb1.
  - intros Hchi.
    destruct (Qgtb (inject_Z total * BENFORD_EXPECTED d / 100) 0) eqn:E;
      [| exact Hchi].
    unfold Qgtb in E. apply negb_true_iff in E.
    assert (Hpos : (0 < inject_Z total * BENFORD_EXPECTED d / 100)%Q).
    { apply Qnot_le_lt. intros Hle. apply Qle_bool_iff in Hle. congruence. }
    set (e := (inject_Z total * BENFORD_EXPECTED d / 100)%Q) in *.
    set (o := inject_Z (digit_count first_digits d)) in *.
    assert (Hsq : (0 <= (o - e) ^ 2 / e)%Q).
    { apply Qle_shift_div_l; [exact Hpos |]. rewrite Qmult_0_l.
      apply Qsqr_nonneg. }
    lra.
Qed.

(** What the loop over the digits builds, whatever the digits and the
    total. *)
Lemma digit_step_fold first_digits total :
  forall ds acc,
    (forall d, In d ds -> digit_count first_digits d <= total) ->
    let r := fold_left (digit_step first_digits total) ds acc in
    map digit (snd r) = map digit (snd acc) ++ ds
    /\ map expected (snd r) = map expected (snd acc) ++ map BENFORD_EXPECTED ds
    /\ ((0 <= fst acc)%Q -> (0 <= fst r)%Q)
    /\ (Forall (fun e => 0 <= observed e <= 100)%Q (snd acc) ->
        Forall (fun e => 0 <= observed e <= 100)%Q (snd r)).
Proof.
  induction ds as [| d ds IH]; intros [chi dist] Htotal; cbn zeta.
  - simpl. rewrite !List.app_nil_r. auto.
  - cbn [fold_left].
    destruct (digit_step_spec first_digits total chi dist d
                (Htotal d (or_introl eq_refl)))
      as (chi' & entry & -> & Hd & He & Hobs & Hchi).
    specialize (IH (chi', dist ++ [entry])
                  (fun x Hx => Htotal x (or_intror Hx))).
    cbn zeta in IH.
    destruct IH as (IHd & IHe & IHc & IHo). cbn [fst snd] in *.
    rewrite IHd, IHe, !map_app. cbn [map]. rewrite Hd, He.
    rewrite <- !List.app_assoc. cbn [app].
    split; [reflexivity |]. split; [reflexivity |]. split.
    + intros H. apply IHc. now apply Hchi.
    + intros H. apply IHo. apply Forall_app. split; [exact H |].
      constructor; [exact Hobs | constructor].
Qed.

Lemma digit_count_le_total first_digits d :
  In d digits ->
  digit_count first_digits d
  <= fold_right Z.add 0 (map (digit_count first_digits) digits).
Proof.
  pose proof (digit_count_nonneg first_digits) as H.
  unfold digits. cbn [map fold_right].
  pose proof (H 1). pose proof (H 2). pose proof (H 3). pose proof (H 4).
  pose proof (H 5). pose proof (H 6). pose proof (H 7). pose proof (H 8).
  pose proof (H 9). intros Hin. simpl in Hin.
  repeat (destruct Hin as [<- | Hin]; [lia |]). contradiction.
Qed.

Lemma analysis_of_digits_shape first_digits :
  let r := analysis_of_digits first_digits in
  map digit (digitDistribution r) = digits
  /\ map expected (digitDistribution r) = map BENFORD_EXPECTED digits
  /\ (0 <= chi2 r)%Q
  /\ Forall (fun e => 0 <= observed e <= 100)%Q (digitDistribution r)
  /\ (significant r = true /\ (pValue r = 0.01 \/ pValue r = 0.05)
      \/ significant r = false /\ (pValue r = 0.10 \/ pValue r = 1.0))%float.
Proof.
  unfold analysis_of_digits.
  destruct (List.length first_digits <? 50)%nat.
  - cbn zeta. repeat split; try reflexivity; try discriminate.
    + repeat constructor; discriminate.
    + right. split; [reflexivity | right; reflexivity].
  - set (total := fold_right Z.add 0 (map (digit_count first_digits) digits)).
    pose proof (digit_step_fold first_digits total digits (0%Q, [])
                  (fun d Hd => digit_count_le_total first_digits d Hd)) as Hfold.
    cbn zeta in Hfold.
    destruct (fold_left (digit_step first_digits total) digits (0%Q, []))
      as [chi dist].
    cbn [fst snd map app] in Hfold. destruct Hfold as (Hd & He & Hc & Ho).
    assert (Hchi : (0 <= Qround2 chi)%Q).
    { apply (Qround2_bounds chi 0). apply Hc. discriminate. }
    destruct (Qgtb chi 20.09); [| destruct (Qgtb chi 15.51)]; cbn zeta;
      cbn [digitDistribution chi2 significant pValue];
      (split; [exact Hd |]); (split; [exact He |]); (split; [exact Hchi |]);
      (split; [apply Ho; constructor |]).
    + left. split; [reflexivity | left; reflexivity].
    + left. split; [reflexivity | right; reflexivity].
    + right. split; [reflexivity | left; reflexivity].
Qed.

(** X5.  [calculate_benford_analysis] never raises.  Whatever the sample,
    its result lists the nine digits 1 to 9 in order, each with the Benford
    reference percentage, and reports one of the p-values 0.01, 0.05 (with
    significant true) or 0.10, 1.0 (with significant false). *)
Theorem benford_result_shape (values : list (option Z)) :
  exists r,
    calculate_benford_analysis values = Ok r
    /\ map digit (digitDistribution r) = [1; 2; 3; 4; 5; 6; 7; 8; 9]
    /\ map expected (digitDistribution r)
       = map BENFORD_EXPECTED [1; 2; 3; 4; 5; 6; 7; 8; 9]
    /\ (significant r = true /\ (pValue r = 0.01 \/ pValue r = 0.05)
        \/ significant r = false /\ (pValue r = 0.10 \/ pValue r = 1.0))%float.
Proof.
  unfold calculate_benford_analysis.
  destruct (apply_get_first_digit values) as (applied & -> & _). simpl.
  eexists. split; [reflexivity |].
  destruct (analysis_of_digits_shape (dropna applied)) as (Hd & He & _ & _ & Hp).
  auto.
Qed.

(** X6.  The chi-squared statistic reported by [calculate_benford_analysis]
    is never negative, and every observed percentage of its distribution
    lies between 0 and 100. *)
Theorem benford_result_bounds (values : list (option Z)) :
  exists r,
    calculate_benford_analysis values = Ok r
    /\ (0 <= chi2 r)%Q
    /\ Forall (fun e => 0 <= observed e <= 100)%Q (digitDistribution r).
Proof.
  unfold calculate_benford_analysis.
  destruct (apply_get_first_digit values) as (applied & -> & _). simpl.
  eexists. split; [reflexivity |].
  destruct (analysis_of_digits_shape (dropna applied)) as (_ & _ & Hc & Ho & _).
  auto.
Qed.

Lemma tiny_amount_digit v : 1 <= v <= 9 -> get_first_digit (Some v) = Ok (Some 0).
Proof.
  intros H.
  assert (Hv : v = 1 \/ v = 2 \/ v = 3 \/ v = 4 \/ v = 5 \/ v = 6 \/ v = 7
               \/ v = 8 \/ v = 9) by lia.
  repeat (destruct Hv as [-> | Hv]; [reflexivity |]). subst v. reflexivity.
Qed.

Lemma tiny_amounts_digits values :
  (forall v, In (Some v) values -> v <= 9) ->
  forall applied,
    mapM get_first_digit values = Ok applied -> Forall (eq 0) (dropna applied).
Proof.
  induction values as [| value t IH]; intros Hsmall applied; simpl.
  - intros [= <-]. constructor.
  - assert (Hhead : get_first_digit value = Ok None
                    \/ get_first_digit value = Ok (Some 0)).
    { destruct value as [v |]; [| left; reflexivity].
      destruct (Z_le_gt_dec v 0) as [Hle | Hgt].
      - left. now apply get_first_digit_excluded.
      - right. apply tiny_amount_digit.
        specialize (Hsmall v (or_introl eq_refl)). lia. }
    specialize (IH (fun v Hv => Hsmall v (or_intror Hv))).
    destruct (mapM get_first_digit t) as [rest |]; simpl;
      [| destruct Hhead as [-> | ->]; discriminate].
    specialize (IH rest eq_refl).
    destruct Hhead as [-> | ->]; simpl; intros [= <-]; simpl;
      [exact IH | now constructor].
Qed.

Lemma digit_count_of_zeros first_digits d :
  Forall (eq 0) first_digits -> In d digits -> digit_count first_digits d = 0.
Proof.
  intros Hz Hd. unfold digit_count.
  assert (Hnil : filter (Z.eqb d) first_digits = []).
  { induction Hz as [| x t <- _ IH]; [reflexivity |]. simpl.
    assert (E : (d =? 0) = false).
    { apply Z.eqb_neq. intros ->. simpl in Hd.
      repeat (destruct Hd as [Hd | Hd]; [discriminate |]). contradiction. }
    now rewrite E. }
  now rewrite Hnil.
Qed.

(** X7.  When at least 50 valid amounts are all below 0.10, the sample-size
    guard is passed although none of their digits falls in 1..9: the total
    is zero, nothing is divided by it, and the result is statistic 0, not
    significant, p-value 0.10, with every observed percentage 0. *)
Theorem tiny_amounts_pass_the_guard (values : list (option Z)) :
  (50 <= count_valid values)%nat ->
  (forall v, In (Some v) values -> v <= 9) ->
  exists r,
    calculate_benford_analysis values = Ok r
    /\ significant r = false
    /\ pValue r = 0.10%float
    /\ chi2 r == 0
    /\ Forall (fun e => observed e == 0) (digitDistribution r).
Proof.
  intros Hmany Hsmall. unfold calculate_benford_analysis.
  destruct (apply_get_first_digit values) as (applied & Happ & Hlen).
  pose proof (tiny_amounts_digits values Hsmall applied Happ) as Hzeros.
  rewrite Happ. simpl. eexists. split; [reflexivity |].
  unfold analysis_of_digits.
  assert (Hguard : (List.length (dropna applied) <? 50)%nat = false)
    by (apply Nat.ltb_ge; lia).
  rewrite Hguard.
  pose proof (digit_count_of_zeros (dropna applied)) as Hc.
  unfold digits, digit_step. cbn [map fold_right fold_left].
  repeat match goal with
         | |- context [digit_count (dropna applied) ?d] =>
             rewrite (Hc d Hzeros) by (simpl; tauto)
         end.
  vm_compute. repeat split; try discriminate; repeat constructor.
Qed.

Lemma tiny_amounts_pass_the_guard_witness :
  (50 <= count_valid (repeat (Some 5%Z) 50))%nat
  /\ exists r,
       calculate_benford_analysis (repeat (Some 5) 50) = Ok r
       /\ significant r = false
       /\ pValue r = 0.10%float
       /\ chi2 r == 0
       /\ Forall (fun e => observed e == 0) (digitDistribution r).
Proof.
  split; [vm_compute; lia |].
  apply (tiny_amounts_pass_the_guard (repeat (Some 5) 50)).
  - vm_compute. lia.
  - intros v Hv. apply repeat_spec in Hv. injection Hv as ->. lia.
Defined.

End BenfordExtras.

Section SortFacts.
Import Py Deputies.

Lemma insert_by_perm {A} (before : A -> A -> bool) x (l : list A) :
  Permutation (insert_by before x l) (x :: l).
Proof.
  induction l as [| y t IH]; simpl; [reflexivity |].
  destruct (before x y); [reflexivity |].
  rewrite IH. apply perm_swap.
Qed.

Lemma sort_by_perm {A} (before : A -> A -> bool) (l : list A) :
  Permutation (sort_by before l) l.
Proof.
  unfold sort_by.
  assert (H : forall acc,
             Permutation (fold_left (fun a y => insert_by before y a) l acc)
               (l ++ acc)).
  { induction l as [| y t IH]; intros acc; simpl; [reflexivity |].
    rewrite IH, insert_by_perm. symmetry. apply Permutation_middle. }
  rewrite H. now rewrite List.app_nil_r.
Qed.

Lemma Qgtb_true (x y : Q) : Qgtb x y = true <-> (y < x)%Q.
Proof.
  unfold Qgtb. rewrite negb_true_iff, <- not_true_iff_false, Qle_bool_iff.
  split; [apply Qnot_le_lt | apply Qlt_not_le].
Qed.

Lemma Qgtb_false (x y : Q) : Qgtb x y = false <-> (x <= y)%Q.
Proof. unfold Qgtb. rewrite negb_false_iff. apply Qle_bool_iff. Qed.

Lemma insert_by_sorted_desc {A} (key : A -> Q) x (l : list A) :
  StronglySorted (fun a b => key b <= key a)%Q l ->
  StronglySorted (fun a b => key b <= key a)%Q
    (insert_by (fun a b => Qgtb (key a) (key b)) x l).
Proof.
  induction 1 as [| y t Ht IH Hy]; simpl.
  - constructor; constructor.
  - destruct (Qgtb (key x) (key y)) eqn:E.
    + apply Qgtb_true in E. constructor; [constructor; assumption |].
      constructor; [now apply Qlt_le_weak |].
      rewrite Forall_forall in *. intros z Hz. specialize (Hy z Hz).
      apply Qle_trans with (key y); [exact Hy | now apply Qlt_le_weak].
    + apply Qgtb_false in E. constructor; [exact IH |].
      rewrite Forall_forall in *. intros z Hz.
      apply insert_by_In in Hz as [-> | Hz]; [exact E | exact (Hy z Hz)].
Qed.

Lemma sort_by_sorted_desc {A} (key : A -> Q) (l : list A) :
  StronglySorted (fun a b => key b <= key a)%Q
    (sort_by (fun a b => Qgtb (key a) (key b)) l).
Proof.
  unfold sort_by.
  assert (H : forall acc,
             StronglySorted (fun a b => key b <= key a)%Q acc ->
             StronglySorted (fun a b => key b <= key a)%Q
               (fold_left (fun a y => insert_by (fun a b => Qgtb (key a) (key b)) y a)
                  l acc)).
  { induction l as [| y t IH]; intros acc Hacc; simpl; [exact Hacc |].
    apply IH. now apply insert_by_sorted_desc. }
  apply H. constructor.
Qed.

End SortFacts.

Section ValidationExtras.
Import Py Validation.

Variable schema_stage : DataFrame -> list issue.

(** X8.  [validate_expenses] reports a table as valid exactly when it
    returns no error.  An empty table is valid whatever its columns, with
    the single warning that it is empty; when a required column is missing
    the missing-column errors are all that is returned, without any warning,
    since the later stages are not run; otherwise the only possible error is
    the one on month values. *)
Theorem validation_errors_match_verdict (df : DataFrame) :
  let result := validate_expenses schema_stage df in
  (fst (fst result) = true <-> snd (fst result) = [])
  /\ (empty df = true -> result = (true, [], [EmptyFrame]))
  /\ (empty df = false -> no_missing_column df = false ->
      result = (false, stage1 df, []))
  /\ (empty df = false -> no_missing_column df = true ->
      snd (fst result) = []
      \/ 0 < invalid_months df
         /\ snd (fst result) = [InvalidMonths (invalid_months df)]).
Proof.
  cbv zeta. unfold validate_expenses, no_missing_column.
  destruct (empty df).
  - repeat split; congruence.
  - destruct (stage1 df) as [| e errors] eqn:Hs1.
    + cbn [fst snd]. unfold stage3_errors.
      destruct (str_in "numMes" (columns df)).
      * destruct (0 <? invalid_months df) eqn:Hm.
        -- apply Z.ltb_lt in Hm. cbn [List.length Nat.eqb].
           repeat split; try congruence. intros _ _. right. auto.
        -- cbn [List.length Nat.eqb]. repeat split; try congruence. auto.
      * cbn [List.length Nat.eqb]. repeat split; try congruence. auto.
    + cbn [fst snd]. repeat split; congruence.
Qed.

End ValidationExtras.

Section FirstPassFacts.
Import Py RoundNumber Benford Deputies.

(** The fields of the record the first loop builds for one group. *)
Lemma first_pass_fields hhi_df idx who group d :
  first_pass hhi_df idx who group = Ok d ->
  name d = who
  /\ id d = Z.of_nat idx + 1
  /\ totalSpending d = reais (sum_values (map value group))
  /\ transactionCount d = Z.of_nat (List.length group)
  /\ topSuppliers d = top_suppliers_of group (totalSpending d)
  /\ redFlags d
     = first_pass_flags (hhi_value d) (topSuppliers d) (roundValuePct d) (benford d)
  /\ calculate_benford_analysis (map value group) = Ok (benford d)
  /\ roundValuePct d = round_value_pct (map value group).
Proof.
  unfold first_pass.
  destruct (hhi_of hhi_df who) as [h l].
  destruct (base_risk h) as [lvl base].
  destruct (calculate_benford_analysis (map value group)) as [r |]; simpl;
    [| discriminate].
  intros [= <-]. simpl. repeat split; reflexivity.
Qed.

Lemma first_pass_all_Forall (P : Deputy -> Prop) hhi_df :
  (forall idx who group d, first_pass hhi_df idx who group = Ok d -> P d) ->
  forall groups idx ds,
    first_pass_all hhi_df idx groups = Ok ds -> Forall P ds.
Proof.
  intros HP. induction groups as [| [who group] t IH]; intros idx ds; simpl.
  - intros [= <-]. constructor.
  - destruct (first_pass hhi_df idx who group) as [d |] eqn:Hd; simpl;
      [| discriminate].
    destruct (first_pass_all hhi_df (S idx) t) as [rest |] eqn:Hrest; simpl;
      [| discriminate].
    intros [= <-]. constructor; [exact (HP _ _ _ _ Hd) | exact (IH _ _ Hrest)].
Qed.

Lemma first_pass_deputies_Forall (P : Deputy -> Prop) expenses_df hhi_df :
  (forall idx who group d, first_pass hhi_df idx who group = Ok d -> P d) ->
  Forall P (first_pass_deputies expenses_df hhi_df).
Proof.
  intros HP. unfold first_pass_deputies.
  destruct (first_pass_all hhi_df 0 (groupby expenses_df)) as [ds |] eqn:E;
    [| constructor].
  exact (first_pass_all_Forall P hhi_df HP _ _ _ E).
Qed.

Lemma first_pass_all_names hhi_df :
  forall groups idx ds,
    first_pass_all hhi_df idx groups = Ok ds ->
    map name ds = map fst groups
    /\ map id ds = map (fun i => Z.of_nat i + 1) (seq idx (List.length groups)).
Proof.
  induction groups as [| [who group] t IH]; intros idx ds; simpl.
  - intros [= <-]. split; reflexivity.
  - destruct (first_pass hhi_df idx who group) as [d |] eqn:Hd; simpl;
      [| discriminate].
    destruct (first_pass_all hhi_df (S idx) t) as [rest |] eqn:Hrest; simpl;
      [| discriminate].
    intros [= <-]. destruct (IH _ _ Hrest) as [Hn Hi].
    destruct (first_pass_fields _ _ _ _ _ Hd) as (Hname & Hid & _).
    simpl. rewrite Hn, Hi, Hname, Hid. split; reflexivity.
Qed.

(** *** Sorted keys *)

Lemma compare_lt_trans a b c :
  String.compare a b = Lt -> String.compare b c = Lt -> String.compare a c = Lt.
Proof.
  intros H1 H2.
  apply String_as_OT.cmp_lt in H1. apply String_as_OT.cmp_lt in H2.
  apply String_as_OT.cmp_lt. exact (String_as_OT.lt_trans _ _ _ H1 H2).
Qed.

Lemma insert_key_In k x l : In x (insert_key k l) <-> x = k \/ In x l.
Proof.
  induction l as [| y t IH]; simpl; [intuition congruence |].
  destruct (String.compare k y) eqn:E; simpl.
  - apply String.compare_eq_iff in E. subst y. intuition congruence.
  - intuition congruence.
  - rewrite IH. intuition congruence.
Qed.

Lemma insert_key_sorted k l :
  StronglySorted (fun a b => String.compare a b = Lt) l ->
  StronglySorted (fun a b => String.compare a b = Lt) (insert_key k l).
Proof.
  induction 1 as [| y t Ht IH Hy]; simpl.
  - constructor; constructor.
  - destruct (String.compare k y) eqn:E.
    + constructor; assumption.
    + constructor; [constructor; assumption |].
      constructor; [exact E |].
      rewrite Forall_forall in *. intros z Hz.
      exact (compare_lt_trans _ _ _ E (Hy z Hz)).
    + constructor; [exact IH |].
      rewrite Forall_forall in *. intros z Hz.
      apply insert_key_In in Hz as [-> | Hz]; [| exact (Hy z Hz)].
      rewrite String.compare_antisym, E. reflexivity.
Qed.

Lemma sorted_keys_sorted l :
  StronglySorted (fun a b => String.compare a b = Lt) (sorted_keys l).
Proof.
  unfold sorted_keys.
  assert (H : forall acc,
             StronglySorted (fun a b => String.compare a b = Lt) acc ->
             StronglySorted (fun a b => String.compare a b = Lt)
               (fold_left (fun a k => insert_key k a) (dropna l) acc)).
  { induction (dropna l) as [| k t IH]; intros acc Hacc; simpl; [exact Hacc |].
    apply IH. now apply insert_key_sorted. }
  apply H. constructor.
Qed.

Lemma strictly_sorted_NoDup l :
  StronglySorted (fun a b => String.compare a b = Lt) l -> NoDup l.
Proof.
  induction 1 as [| y t Ht IH Hy]; constructor; [| exact IH].
  intros Hin. rewrite Forall_forall in Hy. specialize (Hy y Hin).
  assert (E : String.compare y y = Eq) by now apply String_as_OT.cmp_eq.
  congruence.
Qed.

Lemma groupby_keys rows : map fst (groupby rows) = sorted_keys (map deputy rows).
Proof. unfold groupby. rewrite map_map. simpl. apply map_id. Qed.

Lemma filter_keeps_distinct {R K} (keep : R -> bool) (field : R -> K) :
  forall records,
    NoDup (map field records) -> NoDup (map field (filter keep records)).
Proof.
  intros records. induction records as [| x t IH]; simpl; [auto |].
  intros H. inversion H as [| ? ? Hx Ht]; subst.
  destruct (keep x); simpl; [| auto].
  constructor; [| auto].
  intros Hin. apply Hx. apply in_map_iff in Hin as (y & Hy & Hin).
  apply filter_In in Hin as [Hin _]. apply in_map_iff. eauto.
Qed.

End FirstPassFacts.

Section OutputExtras.
Import Py RoundNumber Benford Deputies Tiers Mock.

Variable sqrt : Q -> Q.

Lemma generate_deputies_cases expenses_df hhi_df :
  expenses_df = [] /\ generate_deputies sqrt expenses_df hhi_df = Ok placeholders
  \/ expenses_df <> []
     /\ generate_deputies sqrt expenses_df hhi_df
        = Ok (finish sqrt (first_pass_deputies expenses_df hhi_df)).
Proof.
  destruct expenses_df as [| r rows]; [left; split; reflexivity |].
  right. split; [discriminate |].
  apply generate_deputies_ok. discriminate.
Qed.

Lemma finish_perm deputies :
  Permutation (finish sqrt deputies)
    (map (second_pass (stats_by sqrt party (filter active deputies))
            (stats_by sqrt uf (filter active deputies)))
       (filter active deputies)).
Proof. unfold finish. apply sort_by_perm. Qed.

(** X9.  The records [generate_deputies] returns are ranked by total
    spending, largest first; for a non-empty table they are the second-pass
    records of the active deputies, none lost and none repeated. *)
Theorem output_is_ranked_by_spending expenses_df hhi_df :
  exists out,
    generate_deputies sqrt expenses_df hhi_df = Ok out
    /\ StronglySorted (fun a b => totalSpending b <= totalSpending a)%Q out
    /\ (expenses_df <> [] ->
        let peers := active_deputies expenses_df hhi_df in
        Permutation out
          (map (second_pass (stats_by sqrt party peers) (stats_by sqrt uf peers))
             peers)).
Proof.
  destruct (generate_deputies_cases expenses_df hhi_df) as [[-> ->] | [Hne ->]];
    eexists; (split; [reflexivity |]); split.
  - unfold placeholders. cbn [map].
    repeat (constructor; [| repeat (constructor; [vm_compute; discriminate |]);
                            constructor]).
    constructor.
  - intros H. now contradiction H.
  - unfold finish. apply (sort_by_sorted_desc totalSpending).
  - intros _. apply finish_perm.
Qed.

Lemma map_second_pass_name ps ss l :
  map name (map (second_pass ps ss) l) = map name l.
Proof. rewrite map_map. reflexivity. Qed.

Lemma map_second_pass_id ps ss l :
  map id (map (second_pass ps ss) l) = map id l.
Proof. rewrite map_map. reflexivity. Qed.

Lemma first_pass_deputies_NoDup expenses_df hhi_df :
  NoDup (map name (first_pass_deputies expenses_df hhi_df))
  /\ NoDup (map id (first_pass_deputies expenses_df hhi_df)).
Proof.
  unfold first_pass_deputies.
  destruct (first_pass_all hhi_df 0 (groupby expenses_df)) as [ds |] eqn:E;
    [| split; constructor].
  destruct (first_pass_all_names _ _ _ _ E) as [-> ->]. split.
  - rewrite groupby_keys. apply strictly_sorted_NoDup, sorted_keys_sorted.
  - apply Injective_map_NoDup; [| apply seq_NoDup].
    intros i j H. lia.
Qed.

(** X10.  No two records of the output of [generate_deputies] carry the
    same name, and no two the same id. *)
Theorem output_names_and_ids_are_distinct expenses_df hhi_df :
  exists out,
    generate_deputies sqrt expenses_df hhi_df = Ok out
    /\ NoDup (map name out) /\ NoDup (map id out).
Proof.
  destruct (generate_deputies_cases expenses_df hhi_df) as [[-> ->] | [Hne ->]];
    eexists; (split; [reflexivity |]).
  - split; vm_compute;
      repeat (constructor; [simpl; intuition discriminate |]); constructor.
  - destruct (first_pass_deputies_NoDup expenses_df hhi_df) as [Hn Hi].
    pose proof (finish_perm (first_pass_deputies expenses_df hhi_df)) as Hp.
    split.
    + apply (Permutation_NoDup (Permutation_sym (Permutation_map name Hp))).
      rewrite map_second_pass_name. now apply filter_keeps_distinct.
    + apply (Permutation_NoDup (Permutation_sym (Permutation_map id Hp))).
      rewrite map_second_pass_id. now apply filter_keeps_distinct.
Qed.

Lemma first_pass_deputies_flags expenses_df hhi_df :
  Forall (fun d =>
            redFlags d
            = first_pass_flags (hhi_value d) (topSuppliers d) (roundValuePct d)
                (benford d)
            /\ topSuppliers d
               = top_suppliers_of
                   (filter (fun r => is_key (name d) (deputy r)) expenses_df)
                   (totalSpending d))
    (first_pass_deputies expenses_df hhi_df).
Proof.
  unfold first_pass_deputies.
  destruct (first_pass_all hhi_df 0 (groupby expenses_df)) as [ds |] eqn:E;
    [| constructor].
  assert (H : forall groups idx ds,
             first_pass_all hhi_df idx groups = Ok ds ->
             Forall (fun g => snd g
                              = filter (fun r => is_key (fst g) (deputy r))
                                  expenses_df) groups ->
             Forall (fun d =>
                       redFlags d
                       = first_pass_flags (hhi_value d) (topSuppliers d)
                           (roundValuePct d) (benford d)
                       /\ topSuppliers d
                          = top_suppliers_of
                              (filter (fun r => is_key (name d) (deputy r))
                                 expenses_df)
                              (totalSpending d)) ds).
  { clear. induction groups as [| [who group] t IH]; intros idx ds; simpl.
    - intros [= <-] _. constructor.
    - destruct (first_pass hhi_df idx who group) as [d |] eqn:Hd; simpl;
        [| discriminate].
      destruct (first_pass_all hhi_df (S idx) t) as [rest |] eqn:Hrest; simpl;
        [| discriminate].
      intros [= <-] Hg. inversion Hg as [| ? ? Hhead Htail]; subst.
      constructor; [| exact (IH _ _ Hrest Htail)].
      destruct (first_pass_fields _ _ _ _ _ Hd)
        as (Hname & _ & _ & _ & Htop & Hflags & _).
      simpl in Hhead. rewrite Hname, <- Hhead. auto. }
  apply (H _ _ _ E). unfold groupby. apply Forall_forall.
  intros g Hg. apply in_map_iff in Hg as (k & <- & _). reflexivity.
Qed.

(** X11.  The evidence list of every record of the output holds, in this
    order and each only when its condition is met: supplier concentration
    (HHI above 2500), share of the top supplier (above 50), round values
    (above 20), Benford deviation (significant), spending above the party
    average and above the state average (z-score above 2.0, so never for a
    deputy at or below the average); it has at most six entries. *)
Theorem evidence_list_is_ordered expenses_df hhi_df :
  exists out,
    generate_deputies sqrt expenses_df hhi_df = Ok out
    /\ forall d, In d out ->
       let peers := active_deputies expenses_df hhi_df in
       let z_party := z_score (stats_by sqrt party peers) (party d) (totalSpending d) in
       let z_state := z_score (stats_by sqrt uf peers) (uf d) (totalSpending d) in
       redFlags d
       = (if fgt (hhi_value d) 2500 then [HighConcentration (hhi_value d)] else [])
         ++ match topSuppliers d with
            | s :: _ => if Qgtb (s_pct s) 50 then [TopSupplierShare (s_pct s)] else []
            | [] => []
            end
         ++ (if Qgtb (roundValuePct d) 20 then [RoundValues (roundValuePct d)] else [])
         ++ (if significant (benford d)
             then [BenfordDeviation (chi2 (benford d))] else [])
         ++ (if xgt z_party 2 then [AbovePartyAverage z_party] else [])
         ++ (if xgt z_state 2 then [AboveStateAverage z_state] else [])
       /\ (List.length (redFlags d) <= 6)%nat.
Proof.
  destruct (generate_deputies_cases expenses_df hhi_df) as [[-> ->] | [Hne ->]];
    eexists; (split; [reflexivity |]); intros d Hin; cbv zeta.
  - unfold placeholders in Hin. simpl in Hin.
    repeat (destruct Hin as [<- | Hin]; [split; [reflexivity | simpl; lia] |]).
    contradiction.
  - apply finish_In in Hin as (d0 & Hin0 & _ & ->).
    pose proof (first_pass_deputies_flags expenses_df hhi_df) as Hflags.
    rewrite Forall_forall in Hflags. destruct (Hflags d0 Hin0) as [Hf _].
    unfold active_deputies.
    cbn [redFlags second_pass hhi_value topSuppliers roundValuePct benford party uf
           totalSpending].
    rewrite Hf. unfold first_pass_flags.
    rewrite <- !List.app_assoc. split; [reflexivity |].
    rewrite !length_app.
    destruct (fgt (hhi_value d0) 2500); destruct (topSuppliers d0) as [| s ?];
      try destruct (Qgtb (s_pct s) 50);
      destruct (Qgtb (roundValuePct d0) 20); destruct (significant (benford d0));
      destruct (xgt _ 2); destruct (xgt _ 2); simpl; lia.
Qed.


End OutputExtras.

Section ScoreExtras.
Import Py RoundNumber Benford Deputies Tiers Mock.

Variable sqrt : Q -> Q.

Ltac each_base hhi :=
  unfold base_risk;
  destruct (fgt hhi 3000); [| destruct (fgt hhi 2500); [| destruct (fgt hhi 1500)]];
  cbn [fst snd].

Lemma risk_score_of_above_base hhi a b c d e :
  PrimFloat.leb (snd (base_risk hhi)) (risk_score_of (snd (base_risk hhi)) a b c d e)
  = true
  /\ level_rank (fst (base_risk hhi))
     <= level_rank (final_level (risk_score_of (snd (base_risk hhi)) a b c d e)).
Proof.
  each_base hhi; destruct a, b, c, d, e; vm_compute; split; congruence.
Qed.

(** X13.  In every record of the output the final score is at least the
    base score of the record's HHI value, and the final tier is never below
    the concentration tier of the first pass. *)
Theorem final_score_never_below_base expenses_df hhi_df :
  exists out,
    generate_deputies sqrt expenses_df hhi_df = Ok out
    /\ forall d, In d out ->
       PrimFloat.leb (snd (base_risk (hhi_value d))) (riskScore d) = true
       /\ level_rank (fst (base_risk (hhi_value d))) <= level_rank (riskLevel d).
Proof.
  destruct (generate_deputies_cases sqrt expenses_df hhi_df) as [[-> ->] | [Hne ->]];
    eexists; (split; [reflexivity |]); intros d Hin.
  - unfold placeholders in Hin. simpl in Hin.
    repeat (destruct Hin as [<- | Hin]; [vm_compute; split; congruence |]).
    contradiction.
  - destruct (output_record sqrt expenses_df hhi_df d Hne Hin)
      as (_ & _ & Hscore & Hlevel).
    rewrite Hlevel, Hscore. apply risk_score_of_above_base.
Qed.

End ScoreExtras.

(** X14.  For an empty expense table [generate_deputies] returns the same
    ten placeholder records whatever the HHI table: nothing is scored, each
    record has score 0.3 and tier MEDIO (not the tier BAIXO that the cut
    points give to 0.3) and no evidence. *)
Theorem empty_table_gives_placeholders :
  exists out,
    (forall sqrt hhi_df, Deputies.generate_deputies sqrt [] hhi_df = Py.Ok out)
    /\ List.length out = 10%nat
    /\ Forall (fun d =>
                 Deputies.riskScore d = 0.3%float
                 /\ Deputies.riskLevel d = Deputies.MEDIO
                 /\ Deputies.final_level (Deputies.riskScore d) = Deputies.BAIXO
                 /\ Deputies.redFlags d = [])
         out.
Proof.
  exists Mock.placeholders. split; [reflexivity |]. split; [reflexivity |].
  unfold Mock.placeholders. cbn [map].
  repeat (constructor; [vm_compute; repeat split; reflexivity |]). constructor.
Qed.

Section SupplierExtras.
Import Py RoundNumber Benford Deputies Tiers Mock.

Variable sqrt : Q -> Q.

Lemma add_total_keys k v m x :
  In x (map fst (add_total k v m)) <-> x = k \/ In x (map fst m).
Proof.
  induction m as [| [k' a] t IH]; simpl; [intuition congruence |].
  destruct (String.eqb k' k) eqn:E; simpl.
  - apply String.eqb_eq in E. subst k'. intuition congruence.
  - rewrite IH. intuition congruence.
Qed.

Lemma add_total_NoDup k v m :
  NoDup (map fst m) -> NoDup (map fst (add_total k v m)).
Proof.
  induction m as [| [k' a] t IH]; simpl; intros H.
  - constructor; [intros [] | constructor].
  - inversion H as [| ? ? Hk Ht]; subst.
    destruct (String.eqb k' k) eqn:E; simpl; [constructor; assumption |].
    constructor; [| auto].
    rewrite add_total_keys. intros [-> | Hin]; [| contradiction].
    rewrite String.eqb_refl in E. discriminate.
Qed.

Lemma supplier_totals_NoDup group : NoDup (map fst (supplier_totals group)).
Proof.
  unfold supplier_totals.
  assert (H : forall m,
             NoDup (map fst m) ->
             NoDup (map fst
                      (fold_left
                         (fun m r =>
                            match supplier r with
                            | Some s =>
                                add_total s
                                  (match value r with Some v => v | None => 0 end) m
                            | None => m
                            end) group m))).
  { induction group as [| r t IH]; intros m Hm; simpl; [exact Hm |].
    apply IH. destruct (supplier r); [now apply add_total_NoDup | exact Hm]. }
  apply H. constructor.
Qed.

Lemma In_firstn {A} n (l : list A) x : In x (firstn n l) -> In x l.
Proof.
  intros H. rewrite <- (firstn_skipn n l). apply in_or_app. now left.
Qed.

Lemma firstn_NoDup {A} n (l : list A) : NoDup l -> NoDup (firstn n l).
Proof.
  revert n. induction l as [| x t IH]; intros [| n] H; simpl; try constructor.
  - inversion H; subst. intros Hin. apply In_firstn in Hin. contradiction.
  - inversion H; subst. auto.
Qed.

Lemma firstn_sorted {A} (R : A -> A -> Prop) n (l : list A) :
  StronglySorted R l -> StronglySorted R (firstn n l).
Proof.
  revert n. induction l as [| x t IH]; intros [| n] H; simpl; try constructor.
  - inversion H; subst. auto.
  - inversion H as [| ? ? _ Hall]; subst.
    rewrite Forall_forall in *. intros y Hy. apply Hall.
    now apply In_firstn in Hy.
Qed.

Lemma map_sorted {A B} (R : A -> A -> Prop) (S : B -> B -> Prop) (f : A -> B) l :
  (forall a b, R a b -> S (f a) (f b)) ->
  StronglySorted R l -> StronglySorted S (map f l).
Proof.
  intros HRS. induction 1 as [| x t Ht IH Hx]; simpl; constructor; [exact IH |].
  rewrite Forall_forall in *. intros y Hy.
  apply in_map_iff in Hy as (a & <- & Ha). auto.
Qed.

(** The list of top suppliers of a group, for a positive total. *)
Lemma top_suppliers_of_spec group total :
  (0 < total)%Q ->
  (List.length (top_suppliers_of group total) <= 5)%nat
  /\ StronglySorted (fun a b => s_value b <= s_value a)%Q
       (top_suppliers_of group total)
  /\ NoDup (map s_name (top_suppliers_of group total))
  /\ Forall (fun s => s_pct s = (s_value s / total * 100)%Q)
       (top_suppliers_of group total).
Proof.
  intros Htotal. unfold top_suppliers_of.
  set (sorted := sort_by (fun x y : string * Z => snd y <? snd x)
                   (supplier_totals group)).
  assert (Hgt : Qgtb total 0 = true) by now apply Qgtb_true.
  split; [| split; [| split]].
  - rewrite length_map. apply firstn_le_length.
  - apply (map_sorted (fun a b : string * Z => snd b <= snd a)).
    + intros [k1 v1] [k2 v2] H. simpl in *. unfold reais, Qle. simpl. lia.
    + apply firstn_sorted. apply (sort_by_sorted (@snd string Z)).
  - rewrite map_map.
    rewrite (map_ext _ fst) by (intros [k v]; reflexivity).
    rewrite <- firstn_map. apply firstn_NoDup.
    apply (Permutation_NoDup
             (Permutation_sym
                (Permutation_map fst
                   (sort_by_perm (fun x y : string * Z => snd y <? snd x)
                      (supplier_totals group))))).
    apply supplier_totals_NoDup.
  - apply Forall_forall. intros s Hs.
    apply in_map_iff in Hs as ([k v] & <- & _). simpl. now rewrite Hgt.
Qed.

(** X15.  In every record of the output the list of top suppliers has at
    most five entries, ordered by value, largest first, with pairwise
    different names, and the share of each is its value over the record's
    total spending, as a percentage. *)
Theorem top_suppliers_are_ranked expenses_df hhi_df :
  exists out,
    generate_deputies sqrt expenses_df hhi_df = Ok out
    /\ forall d, In d out ->
       (List.length (topSuppliers d) <= 5)%nat
       /\ StronglySorted (fun a b => s_value b <= s_value a)%Q (topSuppliers d)
       /\ NoDup (map s_name (topSuppliers d))
       /\ Forall (fun s => s_pct s = (s_value s / totalSpending d * 100)%Q)
            (topSuppliers d).
Proof.
  destruct (generate_deputies_cases sqrt expenses_df hhi_df) as [[-> ->] | [Hne ->]];
    eexists; (split; [reflexivity |]); intros d Hin.
  - unfold placeholders in Hin. simpl in Hin.
    repeat (destruct Hin as [<- | Hin];
            [simpl; repeat split; try lia; constructor |]).
    contradiction.
  - apply finish_In in Hin as (d0 & Hin0 & Hact & ->).
    pose proof (first_pass_deputies_flags expenses_df hhi_df) as Hflags.
    rewrite Forall_forall in Hflags. destruct (Hflags d0 Hin0) as [_ Htop].
    cbn [topSuppliers totalSpending second_pass]. rewrite Htop.
    apply top_suppliers_of_spec.
    apply active_spec in Hact as [Hspend _].
    apply Qlt_le_trans with 50000%Q; [reflexivity | exact Hspend].
Qed.

End SupplierExtras.

Section MapMFacts.
Import Py.

Lemma mapM_Forall2 {A B} (f : A -> res B) (l : list A) :
  forall out, mapM f l = Ok out -> Forall2 (fun x y => f x = Ok y) l out.
Proof.
  induction l as [| x t IH]; simpl; intros out.
  - intros [= <-]. constructor.
  - destruct (f x) as [y |] eqn:Hx; simpl; [| discriminate].
    destruct (mapM f t) as [ys |]; simpl; [| discriminate].
    intros [= <-]. constructor; [exact Hx | now apply IH].
Qed.

Lemma mapM_Ok_iff {A B} (f : A -> res B) (l : list A) :
  (exists out, mapM f l = Ok out) <-> Forall (fun x => exists y, f x = Ok y) l.
Proof.
  induction l as [| x t IH]; simpl.
  - split; [constructor | eauto].
  - split.
    + intros [out H].
      destruct (f x) as [y |] eqn:Hx; simpl in H; [| discriminate].
      destruct (mapM f t) as [ys |]; simpl in H; [| discriminate].
      constructor; [eauto | apply IH; eauto].
    + intros H. inversion H as [| ? ? [y Hy] Ht]; subst.
      apply IH in Ht as [ys Hys]. rewrite Hy, Hys. simpl. eauto.
Qed.

End MapMFacts.

Section FraudFacts.
Import Py Cells FraudFlags Samples.

Lemma int_of_get_ok (c : option number) :
  (exists z, int_of (get c (Some 0%Q)) = Ok z) <-> c <> Some None.
Proof.
  destruct c as [[q |] |]; simpl; split; intros H;
    try congruence; try (eexists; reflexivity).
  - destruct H as [z H]. discriminate.
  - exfalso. now apply H.
Qed.

Lemma flag_of_row_ok row :
  (exists f, flag_of_row row = Ok f) <-> counts_defined row.
Proof.
  unfold flag_of_row, counts_defined.
  rewrite <- !int_of_get_ok. split.
  - intros [f H].
    destruct (int_of (get (col_id row) (Some 0%Q))) as [i |]; simpl in H;
      [| discriminate].
    destruct (int_of (get (col_CNPJ_Mismatches row) (Some 0%Q))) as [n |];
      simpl in H; [| discriminate].
    eauto.
  - intros [[i ->] [n ->]]. simpl. eauto.
Qed.

Lemma flag_of_row_fields row f :
  flag_of_row row = Ok f ->
  deputyName f = str_of (get (col_Deputado row) (Some ""))
  /\ flags f = flags_of (details f)
  /\ supplierConcentration (details f) = gt (hhiValue (details f)) 2500
  /\ riskLevel f
     = Deputies.upper (str_of (get (col_Risk_Category row) (Some "MEDIO"))).
Proof.
  unfold flag_of_row.
  destruct (int_of (get (col_id row) (Some 0%Q))) as [i |]; simpl; [| discriminate].
  destruct (int_of (get (col_CNPJ_Mismatches row) (Some 0%Q))) as [n |]; simpl;
    [| discriminate].
  intros [= <-]. repeat split; reflexivity.
Qed.

(** X16.  [generate_fraud_flags] returns nothing for an empty table.  For a
    table with rows it raises exactly when some row has a missing (NaN) id
    or mismatch count, where [int] fails; otherwise it returns one record
    per row, in the order of the rows, under the names of the rows. *)
Theorem fraud_flags_follow_the_rows (fraud_df : list FraudRow) :
  (empty fraud_df = true -> generate_fraud_flags fraud_df = Ok [])
  /\ (empty fraud_df = false ->
      ((exists out, generate_fraud_flags fraud_df = Ok out)
       <-> Forall counts_defined fraud_df)
      /\ (generate_fraud_flags fraud_df = ValueError
          <-> Exists (fun row => col_id row = Some None
                                 \/ col_CNPJ_Mismatches row = Some None) fraud_df)
      /\ forall out,
           generate_fraud_flags fraud_df = Ok out ->
           List.length out = List.length fraud_df
           /\ map deputyName out
              = map (fun row => str_of (get (col_Deputado row) (Some ""))) fraud_df).
Proof.
  unfold generate_fraud_flags. split; [intros ->; reflexivity |].
  intros ->.
  assert (Hiff : (exists out, mapM flag_of_row fraud_df = Ok out)
                 <-> Forall counts_defined fraud_df).
  { rewrite mapM_Ok_iff. split; intros H; eapply Forall_impl; try exact H;
      intros row; apply flag_of_row_ok. }
  split; [exact Hiff |]. split.
  - split.
    + intros Herr. apply Exists_exists.
      assert (Hdec : forall row, {counts_defined row} + {~ counts_defined row}).
      { intros row. unfold counts_defined.
        destruct (col_id row) as [[q |] |];
          destruct (col_CNPJ_Mismatches row) as [[q' |] |];
          first [ left; split; discriminate
                | right; intros [H1 H2]; first [now apply H1 | now apply H2] ]. }
      destruct (Forall_Exists_dec counts_defined Hdec fraud_df) as [Hall | Hex].
      * apply Hiff in Hall as [out Hout]. congruence.
      * apply Exists_exists in Hex as (row & Hin & Hrow).
        exists row. split; [exact Hin |]. unfold counts_defined in Hrow.
        destruct (col_id row) as [[q |] |]; [| now left |];
          (destruct (col_CNPJ_Mismatches row) as [[q' |] |]; [| now right |]);
          exfalso; apply Hrow; split; discriminate.
    + intros Hex.
      destruct (mapM flag_of_row fraud_df) as [out |] eqn:E; [| reflexivity].
      exfalso. assert (Hall : Forall counts_defined fraud_df) by (apply Hiff; eauto).
      apply Exists_exists in Hex as (row & Hin & Hrow).
      rewrite Forall_forall in Hall. destruct (Hall row Hin) as [H1 H2].
      destruct Hrow; contradiction.
  - intros out Hout. apply mapM_Forall2 in Hout. clear Hiff.
    induction Hout as [| row f rows fs Hf Htail IH]; [split; reflexivity |].
    destruct IH as [IHl IHn].
    destruct (flag_of_row_fields row f Hf) as (Hname & _).
    simpl. rewrite IHl, IHn, Hname. split; reflexivity.
Qed.

Lemma upper_has_no_lower s :
  forallb (fun c => negb (is_lower c)) (list_ascii_of_string (Deputies.upper s))
  = true.
Proof.
  unfold Deputies.upper. rewrite list_ascii_of_string_of_list_ascii.
  induction (list_ascii_of_string s) as [| c t IH]; [reflexivity |].
  simpl. rewrite IH, andb_true_r.
  destruct c as [[] [] [] [] [] [] [] []]; reflexivity.
Qed.

(** X17.  In every record [generate_fraud_flags] returns, the flags are
    those the record's own details call for, in the order Benford,
    concentration, round values (above 30), CNPJ mismatches (above 0), so at
    most four; the concentration detail is the test of the reported HHI
    against 2500; and the risk level has no lower-case letter. *)
Theorem fraud_flags_agree_with_details (fraud_df : list FraudRow)
    (out : list FraudFlag) :
  generate_fraud_flags fraud_df = Ok out ->
  forall f, In f out ->
    flags f
    = (if benfordDeviation (details f) then [BenfordFlag] else [])
      ++ (if supplierConcentration (details f) then [ConcentrationFlag] else [])
      ++ (if gt (roundValuePct (details f)) 30
          then [RoundFlag (roundValuePct (details f))] else [])
      ++ (if 0 <? cnpjMismatches (details f)
          then [MismatchFlag (cnpjMismatches (details f))] else [])
    /\ (List.length (flags f) <= 4)%nat
    /\ supplierConcentration (details f) = gt (hhiValue (details f)) 2500
    /\ forallb (fun c => negb (is_lower c)) (list_ascii_of_string (riskLevel f))
       = true.
Proof.
  unfold generate_fraud_flags.
  destruct (empty fraud_df); [intros [= <-] f [] |].
  intros Hout f Hin. apply mapM_Forall2 in Hout.
  assert (Hrow : exists row, flag_of_row row = Ok f).
  { induction Hout as [| row g rows gs Hg Htail IH]; [contradiction |].
    destruct Hin as [<- | Hin]; eauto. }
  destruct Hrow as [row Hf].
  destruct (flag_of_row_fields row f Hf) as (_ & Hflags & Hconc & Hlevel).
  split; [exact Hflags |]. split; [| split; [exact Hconc |]].
  - rewrite Hflags. unfold flags_of. rewrite !length_app.
    destruct (benfordDeviation (details f)); destruct (supplierConcentration (details f));
      destruct (gt (roundValuePct (details f)) 30);
      destruct (0 <? cnpjMismatches (details f)); simpl; lia.
  - rewrite Hlevel. apply upper_has_no_lower.
Qed.

Lemma fraud_flags_agree_with_details_witness :
  exists out,
    generate_fraud_flags fraud_table = Ok out
    /\ map flags out
       = [[BenfordFlag; ConcentrationFlag; RoundFlag (Some 42.5%Q); MismatchFlag 2];
          []]
    /\ map riskLevel out = ["CRITICO"; "BAIXO"]
    /\ forall f, In f out ->
         flags f
         = (if benfordDeviation (details f) then [BenfordFlag] else [])
           ++ (if supplierConcentration (details f) then [ConcentrationFlag] else [])
           ++ (if gt (roundValuePct (details f)) 30
               then [RoundFlag (roundValuePct (details f))] else [])
           ++ (if 0 <? cnpjMismatches (details f)
               then [MismatchFlag (cnpjMismatches (details f))] else [])
         /\ (List.length (flags f) <= 4)%nat
         /\ supplierConcentration (details f) = gt (hhiValue (details f)) 2500
         /\ forallb (fun c => negb (is_lower c))
              (list_ascii_of_string (riskLevel f)) = true.
Proof.
  eexists. split; [vm_compute; reflexivity |].
  split; [reflexivity |]. split; [reflexivity |].
  exact (fraud_flags_agree_with_details fraud_table _ eq_refl).
Defined.

End FraudFacts.

Section StableSort.
Import Py Deputies.

Context {A : Type} (key : A -> Q).

Lemma insert_by_same x (l : list A) q :
  StronglySorted (fun a b => key b <= key a)%Q l ->
  filter (fun a => Qeq_bool (key a) q)
    (insert_by (fun a b => Qgtb (key a) (key b)) x l)
  = filter (fun a => Qeq_bool (key a) q) l
    ++ (if Qeq_bool (key x) q then [x] else []).
Proof.
  induction 1 as [| y t Ht IH Hy]; simpl.
  - destruct (Qeq_bool (key x) q); reflexivity.
  - destruct (Qgtb (key x) (key y)) eqn:E.
    + apply Qgtb_true in E. simpl.
      destruct (Qeq_bool (key x) q) eqn:Hx; [| now rewrite List.app_nil_r].
      apply Qeq_bool_eq in Hx.
      assert (Hall : Forall (fun z => Qeq_bool (key z) q = false) (y :: t)).
      { constructor.
        - apply not_true_is_false. intros H. apply Qeq_bool_eq in H. lra.
        - rewrite Forall_forall in *. intros z Hz. specialize (Hy z Hz).
          apply not_true_is_false. intros H. apply Qeq_bool_eq in H. lra. }
      assert (Hnone : filter (fun a => Qeq_bool (key a) q) (y :: t) = []).
      { clear - Hall. induction Hall as [| z zs Hz _ IHz]; [reflexivity |].
        simpl. now rewrite Hz. }
      simpl in Hnone. rewrite Hnone. reflexivity.
    + simpl. rewrite IH. destruct (Qeq_bool (key y) q); reflexivity.
Qed.

(** The sort is stable: the elements of one key keep their order. *)
Lemma sort_by_stable (l : list A) q :
  filter (fun a => Qeq_bool (key a) q)
    (sort_by (fun a b => Qgtb (key a) (key b)) l)
  = filter (fun a => Qeq_bool (key a) q) l.
Proof.
  unfold sort_by.
  assert (H : forall acc,
             StronglySorted (fun a b => key b <= key a)%Q acc ->
             filter (fun a => Qeq_bool (key a) q)
               (fold_left
                  (fun a y => insert_by (fun a b => Qgtb (key a) (key b)) y a) l acc)
             = filter (fun a => Qeq_bool (key a) q) acc
               ++ filter (fun a => Qeq_bool (key a) q) l).
  { induction l as [| y t IH]; intros acc Hacc; simpl.
    - now rewrite List.app_nil_r.
    - rewrite IH by now apply insert_by_sorted_desc.
      rewrite insert_by_same by exact Hacc.
      rewrite <- List.app_assoc. destruct (Qeq_bool (key y) q); reflexivity. }
  rewrite H by constructor. reflexivity.
Qed.

(** When the elements of each key are in the order [R], any two elements of
    one key are. *)
Lemma sorted_within_keys (R : A -> A -> Prop) (l : list A) :
  (forall q, StronglySorted R (filter (fun a => Qeq_bool (key a) q) l)) ->
  StronglySorted (fun a b => key a == key b -> R a b) l.
Proof.
  induction l as [| x t IH]; intros H; constructor.
  - apply IH. intros q. specialize (H q). simpl in H.
    destruct (Qeq_bool (key x) q); [now inversion H | exact H].
  - apply Forall_forall. intros y Hy Heq.
    specialize (H (key x)). simpl in H. rewrite Qeq_bool_refl in H.
    inversion H as [| ? ? _ Hall]; subst.
    rewrite Forall_forall in Hall. apply Hall.
    apply filter_In. split; [exact Hy |].
    apply Qeq_eq_bool. now symmetry.
Qed.

Lemma filter_sorted (R : A -> A -> Prop) (p : A -> bool) (l : list A) :
  StronglySorted R l -> StronglySorted R (filter p l).
Proof.
  induction 1 as [| x t Ht IH Hx]; simpl; [constructor |].
  destruct (p x); [| exact IH].
  constructor; [exact IH |].
  rewrite Forall_forall in *. intros y Hy.
  apply filter_In in Hy as [Hy _]. auto.
Qed.

End StableSort.

Section MismatchFacts.
Import Py Cells Mismatches Samples.

Lemma int_of_ok (x : number) : (exists z, int_of x = Ok z) <-> x <> None.
Proof.
  destruct x as [q |]; simpl; split; intros H; try congruence.
  - eexists. reflexivity.
  - destruct H as [z H]. discriminate.
Qed.

Lemma mismatch_of_row_ok row :
  (exists m, mismatch_of_row row = Ok m) <-> counts_defined row.
Proof.
  unfold mismatch_of_row, counts_defined. rewrite <- !int_of_ok. split.
  - intros [m H].
    destruct (int_of (get (col_transaction_count row) _)) as [t |]; simpl in H;
      [| discriminate].
    destruct (int_of (get (col_deputy_count row) _)) as [d |]; simpl in H;
      [| discriminate].
    eauto.
  - intros [[t ->] [d ->]]. simpl. eauto.
Qed.

Lemma mismatch_of_row_fields row m :
  mismatch_of_row row = Ok m ->
  totalValue m = row_total row
  /\ supplierName m
     = str_of (get (col_fornecedor_ceap row) (get (col_fornecedor row) (Some ""))).
Proof.
  unfold mismatch_of_row.
  destruct (int_of (get (col_transaction_count row) _)) as [t |]; simpl;
    [| discriminate].
  destruct (int_of (get (col_deputy_count row) _)) as [d |]; simpl;
    [| discriminate].
  intros [= <-]. split; reflexivity.
Qed.

Lemma rows_and_records (g : MismatchRow -> string) (h : Mismatch -> string) q rows ms :
  Forall2 (fun row m => mismatch_of_row row = Ok m) rows ms ->
  (forall row m, mismatch_of_row row = Ok m -> h m = g row) ->
  map totalValue ms = map row_total rows
  /\ map h (filter (fun m => Qeq_bool (total_of m) q) ms)
     = map g (filter (fun row => Qeq_bool (get (row_total row) 0%Q) q) rows).
Proof.
  intros H Hgh. induction H as [| row m rows ms Hm Htail [IH1 IH2]];
    [split; reflexivity |].
  destruct (mismatch_of_row_fields row m Hm) as [Ht _].
  simpl. unfold total_of at 1. rewrite Ht, IH1. split; [reflexivity |].
  destruct (Qeq_bool (get (row_total row) 0%Q) q); simpl; rewrite IH2;
    [rewrite (Hgh row m Hm) |]; reflexivity.
Qed.

Lemma is_number_spec (x : number) : is_number x = true <-> x <> None.
Proof. destruct x; simpl; split; congruence. Qed.

(** The records are ranked exactly when every total is a number. *)
Lemma sort_desc_cases rows ms :
  Forall2 (fun row m => mismatch_of_row row = Ok m) rows ms ->
  Forall total_defined rows
  /\ sort_desc ms
     = Ranked (Deputies.sort_by (fun x y => Qgtb (total_of x) (total_of y)) ms)
  \/ Exists (fun row => row_total row = None) rows
     /\ sort_desc ms = Unranked ms.
Proof.
  unfold sort_desc. induction 1 as [| row m rows ms Hm Htail IH].
  - left. split; [constructor | reflexivity].
  - destruct (mismatch_of_row_fields row m Hm) as [Ht _].
    cbn [forallb]. rewrite Ht.
    destruct (row_total row) as [q |] eqn:Eq; cbn [is_number andb].
    + destruct IH as [[Hall E] | [Hex E]].
      * left. split; [constructor; [unfold total_defined; congruence | exact Hall] |].
        destruct (forallb _ ms); [reflexivity | discriminate].
      * right. split; [now apply Exists_cons_tl |].
        destruct (forallb _ ms); [discriminate | reflexivity].
    + right. split; [now apply Exists_cons_hd | reflexivity].
Qed.

Lemma generate_mismatches_ranked mismatch_df :
  empty mismatch_df = false ->
  Forall counts_defined mismatch_df ->
  Forall total_defined mismatch_df ->
  exists ms,
    Forall2 (fun row m => mismatch_of_row row = Ok m) mismatch_df ms
    /\ generate_mismatches mismatch_df
       = Ok (Ranked (Deputies.sort_by (fun x y => Qgtb (total_of x) (total_of y)) ms)).
Proof.
  intros Hne Hcounts Htotals. unfold generate_mismatches. rewrite Hne.
  assert (H : exists ms, mapM mismatch_of_row mismatch_df = Ok ms).
  { apply mapM_Ok_iff. eapply Forall_impl; [| exact Hcounts].
    intros row. apply mismatch_of_row_ok. }
  destruct H as [ms E]. rewrite E. simpl. exists ms.
  apply mapM_Forall2 in E. split; [exact E |].
  destruct (sort_desc_cases _ _ E) as [[_ ->] | [Hex _]]; [reflexivity |].
  exfalso. apply Exists_exists in Hex as (row & Hin & Hnan).
  rewrite Forall_forall in Htotals. exact (Htotals row Hin Hnan).
Qed.



(** X19.  When no count and no total of the table is NaN, the records
    [generate_mismatches] returns with one and the same total value keep
    the order their rows have in the table (the sort is stable). *)
Theorem mismatches_of_equal_total_keep_order (mismatch_df : list MismatchRow)
    (q : Q) :
  Forall counts_defined mismatch_df ->
  Forall total_defined mismatch_df ->
  exists out,
    generate_mismatches mismatch_df = Ok (Ranked out)
    /\ map supplierName (filter (fun m => Qeq_bool (total_of m) q) out)
       = (if empty mismatch_df then []
          else map (fun row => str_of (get (col_fornecedor_ceap row)
                                         (get (col_fornecedor row) (Some ""))))
                 (filter (fun row => Qeq_bool (get (row_total row) 0%Q) q)
                    mismatch_df)).
Proof.
  intros Hcounts Htotals. destruct (empty mismatch_df) eqn:Hne.
  - exists []. unfold generate_mismatches. rewrite Hne. split; reflexivity.
  - destruct (generate_mismatches_ranked _ Hne Hcounts Htotals) as (ms & E & ->).
    eexists. split; [reflexivity |].
    rewrite (sort_by_stable total_of).
    apply (rows_and_records _ supplierName q _ _ E).
    intros row m Hm. now destruct (mismatch_of_row_fields row m Hm).
Qed.

Lemma mismatches_of_equal_total_keep_order_witness :
  Forall counts_defined mismatch_table
  /\ Forall total_defined mismatch_table
  /\ exists out,
       generate_mismatches mismatch_table = Ok (Ranked out)
       /\ map supplierName out = ["POSTO B"; "POSTO A"; "POSTO C"]
       /\ map supplierName (filter (fun m => Qeq_bool (total_of m) 1500.5) out)
          = ["POSTO A"; "POSTO C"].
Proof.
  assert (Hcounts : Forall counts_defined mismatch_table)
    by (repeat constructor; discriminate).
  assert (Htotals : Forall total_defined mismatch_table)
    by (repeat constructor; discriminate).
  split; [exact Hcounts |]. split; [exact Htotals |].
  destruct (mismatches_of_equal_total_keep_order mismatch_table 1500.5
              Hcounts Htotals) as (out & Hout & Hkeep).
  exists out. split; [exact Hout |].
  assert (E : out
              = Deputies.sort_by (fun x y => Qgtb (total_of x) (total_of y))
                  (match mapM mismatch_of_row mismatch_table with
                   | Ok ms => ms
                   | ValueError => []
                   end)).
  { vm_compute in Hout. injection Hout as <-. vm_compute. reflexivity. }
  split; [rewrite E; reflexivity | exact Hkeep].
Defined.

End MismatchFacts.

Section TieFacts.
Import Py RoundNumber Benford Deputies Tiers Mock.

Variable sqrt : Q -> Q.

Lemma sorted_of_map {A B} (R : B -> B -> Prop) (f : A -> B) (l : list A) :
  StronglySorted R (map f l) -> StronglySorted (fun a b => R (f a) (f b)) l.
Proof.
  induction l as [| x t IH]; simpl; intros H; constructor;
    inversion H as [| ? ? Ht Hall]; subst; [auto |].
  rewrite Forall_forall in *. intros y Hy. apply Hall. now apply in_map.
Qed.

Lemma first_pass_deputies_by_name expenses_df hhi_df :
  StronglySorted (fun a b => String.compare (name a) (name b) = Lt)
    (first_pass_deputies expenses_df hhi_df).
Proof.
  apply (sorted_of_map (fun a b => String.compare a b = Lt) name).
  unfold first_pass_deputies.
  destruct (first_pass_all hhi_df 0 (groupby expenses_df)) as [ds |] eqn:E;
    [| constructor].
  destruct (first_pass_all_names _ _ _ _ E) as [-> _].
  rewrite groupby_keys. apply sorted_keys_sorted.
Qed.

(** X20.  Records of the output with one and the same total spending are
    listed in the ascending order of their names. *)
Theorem ties_are_ranked_by_name expenses_df hhi_df :
  exists out,
    generate_deputies sqrt expenses_df hhi_df = Ok out
    /\ StronglySorted
         (fun a b => totalSpending a == totalSpending b ->
                     String.compare (name a) (name b) = Lt) out.
Proof.
  destruct (generate_deputies_cases sqrt expenses_df hhi_df) as [[-> ->] | [Hne ->]];
    eexists; (split; [reflexivity |]).
  - unfold placeholders. cbn [map].
    repeat (constructor;
            [| repeat (constructor;
                       [intros H; exfalso; vm_compute in H; discriminate |]);
               constructor]).
    constructor.
  - apply (sorted_within_keys totalSpending). intros q.
    unfold finish. rewrite (sort_by_stable totalSpending).
    apply filter_sorted.
    apply (map_sorted (fun a b => String.compare (name a) (name b) = Lt));
      [intros a b H; exact H |].
    apply filter_sorted. apply first_pass_deputies_by_name.
Qed.

End TieFacts.

Section SeriesFacts.
Import Py Validation.

Variable f : Z -> Z -> Z.
Variable le : Z -> Z -> Prop.
Hypothesis f_choice : forall a b, f a b = a \/ f a b = b.
Hypothesis f_left : forall a b, le (f a b) a.
Hypothesis f_right : forall a b, le (f a b) b.
Hypothesis le_refl : forall a, le a a.
Hypothesis le_trans : forall a b c, le a b -> le b c -> le a c.

Lemma series_fold_acc l :
  forall acc a,
    fold_left (fun acc c =>
                 match c, acc with
                 | Num z, Num a => Num (f a z)
                 | Num z, _ => Num z
                 | _, _ => acc
                 end) l acc = Num a ->
    (In (Num a) l \/ acc = Num a)
    /\ (forall z, In (Num z) l -> le a z)
    /\ (forall b, acc = Num b -> le a b).
Proof.
  induction l as [| c t IH]; intros acc a; simpl.
  - intros ->. split; [now right |]. split; [intros z [] |].
    intros b [= <-]. apply le_refl.
  - intros H. apply IH in H as (Hin & Hall & Hacc).
    destruct c as [| z | s].
    + split; [tauto |]. split; [| exact Hacc].
      intros z [Hz | Hz]; [discriminate | auto].
    + assert (Hz : le a z /\ (forall b, acc = Num b -> le a b)
                   /\ (In (Num a) t \/ a = z \/ acc = Num a)).
      { destruct acc as [| b | s].
        - specialize (Hacc z eq_refl). repeat split; try discriminate; auto.
          destruct Hin as [Hin | [= <-]]; auto.
        - specialize (Hacc (f b z) eq_refl). split; [| split].
          + exact (le_trans _ _ _ Hacc (f_right b z)).
          + intros b' [= <-]. exact (le_trans _ _ _ Hacc (f_left b z)).
          + destruct Hin as [Hin | [= Ha]]; [auto |].
            destruct (f_choice b z) as [E | E]; rewrite E in Ha; subst; auto.
        - specialize (Hacc z eq_refl). repeat split; try discriminate; auto.
          destruct Hin as [Hin | [= <-]]; auto. }
      destruct Hz as (Hz & Hb & Hwhere). split; [| split; [| exact Hb]].
      * destruct Hwhere as [Hin' | [-> | Hacc']]; auto.
      * intros z' [[= <-] | Hz']; auto.
    + split; [tauto |]. split; [| exact Hacc].
      intros z [Hz | Hz]; [discriminate | auto].
Qed.

Lemma series_fold_spec l a :
  series_fold f l = Num a ->
  In (Num a) l /\ forall z, In (Num z) l -> le a z.
Proof.
  unfold series_fold. intros H. apply series_fold_acc in H as (Hin & Hall & _).
  split; [| exact Hall]. destruct Hin as [Hin | Hin]; [exact Hin | discriminate].
Qed.

End SeriesFacts.

Section ManifestFacts.
Import Py Validation Manifest Samples.

Lemma series_min_spec l a :
  series_fold Z.min l = Num a ->
  In (Num a) l /\ forall z, In (Num z) l -> a <= z.
Proof.
  apply (series_fold_spec Z.min Z.le).
  - intros x y. destruct (Z.min_spec x y) as [[_ ->] | [_ ->]]; auto.
  - apply Z.le_min_l.
  - apply Z.le_min_r.
  - apply Z.le_refl.
  - apply Z.le_trans.
Qed.

Lemma series_max_spec l a :
  series_fold Z.max l = Num a ->
  In (Num a) l /\ forall z, In (Num z) l -> z <= a.
Proof.
  intros H.
  apply (series_fold_spec Z.max (fun x y => y <= x)) in H; [exact H | ..].
  - intros x y. destruct (Z.max_spec x y) as [[_ ->] | [_ ->]]; auto.
  - apply Z.le_max_l.
  - apply Z.le_max_r.
  - apply Z.le_refl.
  - intros x y z H1 H2. exact (Z.le_trans _ _ _ H2 H1).
Qed.

Lemma int_cell_ok c z : int_cell c = Ok z -> c = Num z.
Proof. destruct c; simpl; congruence. Qed.

Lemma in_column col df c :
  In c (column col df) <-> exists r, In r (rows df) /\ get col r = c.
Proof.
  unfold column. rewrite in_map_iff. split; intros (r & H1 & H2); eauto.
Qed.

Lemma in_months_of_year df year c :
  In c (months_of_year df year)
  <-> exists r, In r (rows df) /\ get "numAno" r = Num year /\ get "numMes" r = c.
Proof.
  unfold months_of_year. rewrite in_map_iff. split.
  - intros (r & Hc & Hin). apply filter_In in Hin as [Hin Hy].
    unfold in_year in Hy. destruct (get "numAno" r) as [| z |] eqn:E;
      try discriminate.
    apply Z.eqb_eq in Hy. subst z. eauto.
  - intros (r & Hin & Hy & Hc). exists r. split; [exact Hc |].
    apply filter_In. split; [exact Hin |]. unfold in_year. rewrite Hy.
    apply Z.eqb_refl.
Qed.

(** What a period by months says of the table. *)
Lemma data_period_months df y1 m1 y2 m2 :
  data_period df = Ok (Months y1 m1 y2 m2) ->
  (exists r, In r (rows df) /\ get "numAno" r = Num y1 /\ get "numMes" r = Num m1)
  /\ (exists r, In r (rows df) /\ get "numAno" r = Num y2 /\ get "numMes" r = Num m2)
  /\ forall r y m,
       In r (rows df) -> get "numAno" r = Num y -> get "numMes" r = Num m ->
       (y1 < y \/ y = y1 /\ m1 <= m) /\ (y < y2 \/ y = y2 /\ m <= m2).
Proof.
  unfold data_period.
  destruct (str_in "numAno" (columns df)); [| discriminate].
  destruct (int_cell (series_fold Z.min (column "numAno" df))) as [a |] eqn:Ea;
    simpl; [| discriminate].
  destruct (int_cell (series_fold Z.max (column "numAno" df))) as [b |] eqn:Eb;
    simpl; [| discriminate].
  destruct (str_in "numMes" (columns df)); [| discriminate].
  destruct (int_cell (series_fold Z.min (months_of_year df a))) as [c |] eqn:Ec;
    simpl; [| discriminate].
  destruct (int_cell (series_fold Z.max (months_of_year df b))) as [d |] eqn:Ed;
    simpl; [| discriminate].
  intros [= <- <- <- <-].
  apply int_cell_ok, series_min_spec in Ea as [_ Hya].
  apply int_cell_ok, series_max_spec in Eb as [_ Hyb].
  apply int_cell_ok, series_min_spec in Ec as [Hc Hmc].
  apply int_cell_ok, series_max_spec in Ed as [Hd Hmd].
  apply in_months_of_year in Hc. apply in_months_of_year in Hd.
  split; [exact Hc |]. split; [exact Hd |].
  intros r y m Hin Hy Hm.
  assert (Hay : a <= y) by (apply Hya, in_column; eauto).
  assert (Hby : y <= b) by (apply Hyb, in_column; eauto).
  split.
  - destruct (Z.eq_dec y a) as [-> | Hne]; [right | left; lia].
    split; [reflexivity |]. apply Hmc, in_months_of_year. eauto.
  - destruct (Z.eq_dec y b) as [-> | Hne]; [right | left; lia].
    split; [reflexivity |]. apply Hmd, in_months_of_year. eauto.
Qed.

Lemma source_data_months df s y1 m1 y2 m2 :
  source_data df = Ok s ->
  source_period s = Months y1 m1 y2 m2 ->
  empty df = false /\ data_period df = Ok (Months y1 m1 y2 m2).
Proof.
  unfold source_data. destruct (empty df).
  - intros [= <-]. discriminate.
  - destruct (data_period df) as [p |]; simpl; [| discriminate].
    intros [= <-]. simpl. intros ->. split; reflexivity.
Qed.

(** X21.  When the manifest gives its period by months, both ends are the
    year and month of a record of the table, and every record with a year
    and a month falls between them: not before the first month of the first
    year and not after the last month of the last year. *)
Theorem manifest_period_covers_the_records (df : DataFrame) (s : SourceData)
    (y1 m1 y2 m2 : Z) :
  numeric_dates df = true ->
  source_data df = Ok s ->
  source_period s = Months y1 m1 y2 m2 ->
  y1 <= y2
  /\ (exists r, In r (rows df) /\ get "numAno" r = Num y1 /\ get "numMes" r = Num m1)
  /\ (exists r, In r (rows df) /\ get "numAno" r = Num y2 /\ get "numMes" r = Num m2)
  /\ forall r y m,
       In r (rows df) -> get "numAno" r = Num y -> get "numMes" r = Num m ->
       (y1 < y \/ y = y1 /\ m1 <= m) /\ (y < y2 \/ y = y2 /\ m <= m2).
Proof.
  intros _ Hs Hp.
  destruct (source_data_months df s y1 m1 y2 m2 Hs Hp) as [_ Ep].
  destruct (data_period_months df y1 m1 y2 m2 Ep) as (H1 & H2 & Hall).
  split; [| auto].
  destruct H1 as (r & Hin & Hy & Hm).
  destruct (Hall r y1 m1 Hin Hy Hm) as [_ [Hlt | [Heq _]]]; lia.
Qed.

Lemma manifest_period_covers_the_records_witness :
  exists s,
    source_data dated_table = Ok s
    /\ source_period s = Months 2023 11 2024 3
    /\ 2023 <= 2024
    /\ forall r y m,
         In r (rows dated_table) -> get "numAno" r = Num y -> get "numMes" r = Num m ->
         (2023 < y \/ y = 2023 /\ 11 <= m) /\ (y < 2024 \/ y = 2024 /\ m <= 3).
Proof.
  eexists. split; [vm_compute; reflexivity |].
  split; [reflexivity |].
  destruct (manifest_period_covers_the_records dated_table _ 2023 11 2024 3
              eq_refl eq_refl eq_refl) as (Hy & _ & _ & Hall).
  split; [exact Hy | exact Hall].
Defined.

Variable schema_stage : DataFrame -> list issue.

Lemma count_zero {A} (p : A -> bool) (l : list A) :
  count p l = 0 -> forall x, In x l -> p x = false.
Proof.
  unfold count. intros H x Hin.
  destruct (p x) eqn:E; [| reflexivity].
  assert (Hf : In x (filter p l)) by (apply filter_In; auto).
  destruct (filter p l); [contradiction | discriminate].
Qed.

(** X22.  After a passed validation, a period by months of the manifest
    starts and ends in a month between 1 and 12. *)
Theorem validated_period_has_real_months (df : DataFrame) (s : SourceData)
    (y1 m1 y2 m2 : Z) :
  fst (fst (validate_expenses schema_stage df)) = true ->
  numeric_dates df = true ->
  source_data df = Ok s ->
  source_period s = Months y1 m1 y2 m2 ->
  1 <= m1 <= 12 /\ 1 <= m2 <= 12.
Proof.
  intros Hvalid _ Hs Hp.
  destruct (source_data_months df s y1 m1 y2 m2 Hs Hp) as [Hne Ep].
  destruct (data_period_months df y1 m1 y2 m2 Ep)
    as ((r1 & Hin1 & _ & Hm1) & (r2 & Hin2 & _ & Hm2) & _).
  rewrite validate_expenses_verdict in Hvalid.
  rewrite Hne in Hvalid. simpl in Hvalid.
  apply andb_true_iff in Hvalid as [_ Hmonths]. apply Z.eqb_eq in Hmonths.
  unfold invalid_months in Hmonths.
  pose proof (count_zero invalid_month (column "numMes" df) Hmonths) as Hok.
  assert (H1 : invalid_month (Num m1) = false)
    by (apply Hok, in_column; eauto).
  assert (H2 : invalid_month (Num m2) = false)
    by (apply Hok, in_column; eauto).
  unfold invalid_month, num_lt, num_gt in H1, H2.
  apply orb_false_iff in H1 as [H1a H1b]. apply orb_false_iff in H2 as [H2a H2b].
  apply Z.ltb_ge in H1a, H1b, H2a, H2b. lia.
Qed.

End ManifestFacts.

Lemma validated_period_has_real_months_witness :
  fst (fst (Validation.validate_expenses (fun _ => []) Samples.dated_table)) = true
  /\ Manifest.numeric_dates Samples.dated_table = true
  /\ exists s,
       Manifest.source_data Samples.dated_table = Py.Ok s
       /\ Manifest.source_period s = Manifest.Months 2023 11 2024 3
       /\ 1 <= 11 <= 12 /\ 1 <= 3 <= 12.
Proof.
  split; [reflexivity |]. split; [reflexivity |].
  eexists. split; [vm_compute; reflexivity |]. split; [reflexivity |].
  exact (validated_period_has_real_months (fun _ => []) Samples.dated_table _
           2023 11 2024 3 eq_refl eq_refl eq_refl eq_refl).
Defined.

Section AggregationFacts.
Import Py Benford Deputies Aggregations.

Lemma dropna_In {A} (x : A) l : In x (dropna l) <-> In (Some x) l.
Proof.
  induction l as [| [y |] t IH]; simpl; [tauto | |].
  - rewrite IH. intuition congruence.
  - rewrite IH. intuition congruence.
Qed.

Lemma sorted_keys_In k l : In k (sorted_keys l) <-> In (Some k) l.
Proof.
  unfold sorted_keys. rewrite <- dropna_In.
  assert (H : forall ks acc,
             In k (fold_left (fun a x => insert_key x a) ks acc)
             <-> In k ks \/ In k acc).
  { induction ks as [| x t IH]; intros acc; simpl; [tauto |].
    rewrite IH, insert_key_In. intuition congruence. }
  rewrite H. simpl. tauto.
Qed.

Lemma agg_by_perm col df :
  Permutation (agg_by col df)
    (map (fun k =>
            let rows := filter (fun r => is_key k (col r)) df in
            let v := reais (sum_values (map value rows)) in
            let n := nunique (map deputy rows) in
            {| g_key := k; g_value := v; g_deputyCount := n;
               g_avgPerDeputy := xround2 (np_div v (inject_Z n)) |})
       (sorted_keys (map col df))).
Proof. unfold agg_by. apply sort_by_perm. Qed.

(** What a record of a grouped table is made of. *)
Lemma agg_by_In col df g :
  In g (agg_by col df) ->
  In (Some (g_key g)) (map col df)
  /\ g_value g
     = reais (sum_values (map value (filter (fun r => is_key (g_key g) (col r)) df)))
  /\ g_deputyCount g
     = nunique (map deputy (filter (fun r => is_key (g_key g) (col r)) df))
  /\ g_avgPerDeputy g
     = xround2 (np_div (g_value g) (inject_Z (g_deputyCount g))).
Proof.
  intros Hin. apply (Permutation_in _ (agg_by_perm col df)) in Hin.
  apply in_map_iff in Hin as (k & <- & Hk). simpl.
  apply sorted_keys_In in Hk. auto.
Qed.

Lemma agg_by_keys col df :
  Permutation (map g_key (agg_by col df)) (sorted_keys (map col df)).
Proof.
  rewrite (Permutation_map g_key (agg_by_perm col df)).
  rewrite map_map. simpl. now rewrite map_id.
Qed.

Lemma is_key_spec k c : is_key k c = true <-> c = Some k.
Proof.
  destruct c as [s |]; simpl; [| split; discriminate].
  rewrite String.eqb_eq. split; congruence.
Qed.

(** *** Counting deputies *)

Lemma first_pass_deputies_length expenses_df hhi_df :
  List.length (first_pass_deputies expenses_df hhi_df)
  = List.length (sorted_keys (map deputy expenses_df)).
Proof.
  unfold first_pass_deputies.
  destruct (first_pass_all_ok hhi_df (groupby expenses_df) 0) as (ds & E & _).
  rewrite E. destruct (first_pass_all_names _ _ _ _ E) as [Hn _].
  rewrite <- groupby_keys, <- Hn. now rewrite length_map.
Qed.

Lemma filter_length_le {A} (p : A -> bool) (l : list A) :
  (List.length (filter p l) <= List.length l)%nat.
Proof.
  induction l as [| x t IH]; simpl; [lia |].
  destruct (p x); simpl; lia.
Qed.

(** *** Adding up the groups *)

Lemma sum_values_cons v l :
  sum_values (v :: l) = match v with Some z => z | None => 0 end + sum_values l.
Proof. destruct v; reflexivity. Qed.

Lemma zsum_plus {A} (a b : A -> Z) ks :
  fold_right Z.add 0 (map (fun k => a k + b k) ks)
  = fold_right Z.add 0 (map a ks) + fold_right Z.add 0 (map b ks).
Proof. induction ks as [| k t IH]; simpl; lia. Qed.

Lemma zsum_indicator k0 v ks :
  NoDup ks -> In k0 ks ->
  fold_right Z.add 0 (map (fun k => if String.eqb k0 k then v else 0) ks) = v.
Proof.
  assert (Hout : forall l, ~ In k0 l ->
            fold_right Z.add 0
              (map (fun k => if String.eqb k0 k then v else 0) l) = 0).
  { induction l as [| k t IH]; intros Hn; simpl; [reflexivity |].
    destruct (String.eqb k0 k) eqn:E.
    - apply String.eqb_eq in E. subst k. exfalso. apply Hn. now left.
    - rewrite IH; [reflexivity |]. intros H. apply Hn. now right. }
  induction 1 as [| k t Hk Ht IH]; intros Hin; [destruct Hin |].
  destruct Hin as [-> | Hin]; simpl.
  - rewrite String.eqb_refl, Hout; [lia | exact Hk].
  - destruct (String.eqb k0 k) eqn:E.
    + apply String.eqb_eq in E. subst k. contradiction.
    + rewrite IH; [reflexivity | exact Hin].
Qed.

Lemma zsum_zero {A} (ks : list A) :
  fold_right Z.add 0 (map (fun _ => 0) ks) = 0.
Proof. induction ks as [| k t IH]; simpl; lia. Qed.

Lemma groups_add_up col ks :
  NoDup ks ->
  forall df,
    (forall k, In (Some k) (map col df) -> In k ks) ->
    fold_right Z.add 0
      (map (fun k => sum_values (map value (filter (fun r => is_key k (col r)) df))) ks)
    = sum_values (map value (filter (has col) df)).
Proof.
  intros Hks. induction df as [| r t IH]; intros Hall.
  - simpl. apply zsum_zero.
  - rewrite (map_ext
               (fun k => sum_values
                           (map value (filter (fun r => is_key k (col r)) (r :: t))))
               (fun k => (if is_key k (col r) then amount r else 0)
                         + sum_values
                             (map value (filter (fun r => is_key k (col r)) t)))).
    2:{ intros k. simpl. destruct (is_key k (col r)); [| reflexivity].
        simpl. rewrite sum_values_cons. reflexivity. }
    rewrite zsum_plus, IH by (intros k Hk; apply Hall; now right).
    simpl filter. unfold has at 2. destruct (col r) as [k0 |] eqn:E.
    + cbn [is_key]. rewrite zsum_indicator;
        [| exact Hks | apply Hall; left; exact E].
      simpl. rewrite sum_values_cons. reflexivity.
    + simpl. rewrite zsum_zero. reflexivity.
Qed.

Lemma Qsum_reais zs :
  (Qsum (map reais zs) == reais (fold_right Z.add 0%Z zs))%Q.
Proof.
  induction zs as [| z t IH]; simpl; [reflexivity |].
  rewrite IH. unfold reais, Qeq. simpl. lia.
Qed.

Lemma Qsum_perm l l' : Permutation l l' -> (Qsum l == Qsum l')%Q.
Proof.
  induction 1 as [| x l l' _ IH | x y l | l l' l'' _ IH1 _ IH2]; simpl.
  - reflexivity.
  - now rewrite IH.
  - ring.
  - now rewrite IH1.
Qed.

Lemma agg_by_total col df :
  (Qsum (map g_value (agg_by col df))
   == reais (sum_values (map value (filter (has col) df))))%Q.
Proof.
  rewrite (Qsum_perm _ _ (Permutation_map g_value (agg_by_perm col df))).
  rewrite map_map. simpl.
  rewrite <- (map_map
                (fun k => sum_values
                            (map value (filter (fun r => is_key k (col r)) df)))
                reais).
  rewrite Qsum_reais, groups_add_up; [reflexivity | |].
  - apply strictly_sorted_NoDup, sorted_keys_sorted.
  - intros k Hk. now apply sorted_keys_In.
Qed.

(** X23.  The totals of ["byParty"] add up to the spending of the rows that
    name a party, and those of ["byState"] to the spending of the rows that
    name a state: a row is counted in one group only, and a row without
    the key in none. *)
Theorem group_totals_add_up (expenses_df : list Row) :
  (Qsum (map g_value (byParty (generate_aggregations expenses_df)))
   == reais (sum_values (map value (filter (has row_party) expenses_df))))%Q
  /\ (Qsum (map g_value (byState (generate_aggregations expenses_df)))
      == reais (sum_values (map value (filter (has row_uf) expenses_df))))%Q.
Proof.
  destruct expenses_df as [| r t]; [split; reflexivity |].
  split; apply agg_by_total.
Qed.

Lemma agg_by_ranked col df :
  StronglySorted (fun a b => g_value b <= g_value a)%Q (agg_by col df)
  /\ NoDup (map g_key (agg_by col df))
  /\ forall k, In k (map g_key (agg_by col df)) <-> In (Some k) (map col df).
Proof.
  split; [apply (sort_by_sorted_desc g_value) |]. split.
  - apply (Permutation_NoDup (l := sorted_keys (map col df)));
      [symmetry; apply agg_by_keys |].
    apply strictly_sorted_NoDup, sorted_keys_sorted.
  - intros k. rewrite <- sorted_keys_In. split; intros H.
    + exact (Permutation_in _ (agg_by_keys col df) H).
    + exact (Permutation_in _ (Permutation_sym (agg_by_keys col df)) H).
Qed.

(** X24.  ["byParty"] has one record for each party named in the table and
    no two for the same party, ranked by value, largest first. *)
Theorem parties_are_ranked_and_distinct (expenses_df : list Row) :
  let by_party := byParty (generate_aggregations expenses_df) in
  StronglySorted (fun a b => g_value b <= g_value a)%Q by_party
  /\ NoDup (map g_key by_party)
  /\ forall k, In k (map g_key by_party) <-> In (Some k) (map row_party expenses_df).
Proof.
  destruct expenses_df as [| r t]; [| apply agg_by_ranked].
  simpl. split; [constructor |]. split; [constructor |]. tauto.
Qed.

Lemma np_div_finite_iff x y :
  (exists q, xround2 (np_div x y) = Fin q) <-> ~ (y == 0)%Q.
Proof.
  unfold np_div. destruct (Qeq_bool y 0) eqn:E.
  - apply Qeq_bool_eq in E. split; [| contradiction].
    intros [q H]. destruct (x ?= 0)%Q; discriminate.
  - apply Qeq_bool_neq in E. split; [auto |]. intros _. simpl. eauto.
Qed.

Lemma nunique_positive l : 0 < nunique l <-> exists s, In (Some s) l.
Proof.
  unfold nunique. split.
  - intros H. destruct (sorted_keys l) as [| s t] eqn:E; [simpl in H; lia |].
    exists s. apply sorted_keys_In. rewrite E. now left.
  - intros [s Hs]. apply sorted_keys_In in Hs.
    destruct (sorted_keys l); [contradiction | simpl; lia].
Qed.

Lemma agg_by_average col df g :
  In g (agg_by col df) ->
  ((exists q, g_avgPerDeputy g = Fin q)
   <-> exists r, In r df /\ col r = Some (g_key g) /\ deputy r <> None).
Proof.
  intros Hin. destruct (agg_by_In col df g Hin) as (_ & _ & Hn & ->).
  rewrite np_div_finite_iff.
  assert (Hpos : 0 < g_deputyCount g
                 <-> exists r, In r df /\ col r = Some (g_key g) /\ deputy r <> None).
  { rewrite Hn, nunique_positive. split.
    - intros [s Hs]. apply in_map_iff in Hs as (r & Hr & Hf).
      apply filter_In in Hf as [Hf Hk]. apply is_key_spec in Hk.
      exists r. repeat split; auto. congruence.
    - intros (r & Hr & Hk & Hd). destruct (deputy r) as [s |] eqn:Es;
        [| contradiction].
      exists s. apply in_map_iff. exists r. split; [exact Es |].
      apply filter_In. split; [exact Hr |]. now apply is_key_spec. }
  rewrite <- Hpos.
  assert (Hge : 0 <= g_deputyCount g) by (rewrite Hn; unfold nunique; lia).
  unfold Qeq. simpl. lia.
Qed.

(** X25.  The average per deputy of a party or a state is a division without
    a guard: it is a finite number exactly when some row of the group names
    a deputy, and an infinity or NaN for a group whose rows name none. *)
Theorem average_per_deputy_is_unguarded (expenses_df : list Row) (g : GroupTotal) :
  (In g (byParty (generate_aggregations expenses_df)) ->
   ((exists q, g_avgPerDeputy g = Fin q)
    <-> exists r, In r expenses_df /\ row_party r = Some (g_key g)
                  /\ deputy r <> None))
  /\ (In g (byState (generate_aggregations expenses_df)) ->
      ((exists q, g_avgPerDeputy g = Fin q)
       <-> exists r, In r expenses_df /\ row_uf r = Some (g_key g)
                     /\ deputy r <> None)).
Proof.
  destruct expenses_df as [| r t]; [split; intros [] |].
  split; apply agg_by_average.
Qed.

Variable sqrt : Q -> Q.

(** X26.  The deputies file never has more records than the deputy count of
    the summary: the count is taken before the activity filter, and for an
    empty table the ten placeholders stand against a count of 847. *)
Theorem deputy_records_within_meta_count (expenses_df : list Row)
    (hhi_df : list HhiRow) :
  exists out,
    generate_deputies sqrt expenses_df hhi_df = Ok out
    /\ Z.of_nat (List.length out)
       <= meta_totalDeputies (meta (generate_aggregations expenses_df)).
Proof.
  destruct (generate_deputies_cases sqrt expenses_df hhi_df) as [[-> E] | [Hne E]];
    rewrite E; eexists; (split; [reflexivity |]).
  - simpl. lia.
  - destruct expenses_df as [| r t]; [contradiction |].
    cbn [generate_aggregations meta meta_totalDeputies]. unfold nunique.
    rewrite (Permutation_length (finish_perm sqrt _)), length_map.
    rewrite <- first_pass_deputies_length with (hhi_df := hhi_df).
    apply inj_le, filter_length_le.
Qed.

End AggregationFacts.
